(** * Answer analysis of the quiz backend (agents_ai/main.py)

  A shallow embedding of [analyze_student_answer] and of the
  [/analyze-answers] handler [analyze_answers], with the Python
  operations they rely on:
  - [str] values are strings over the code points 0..255, with
    [str.lower], [str.strip], [str.split] and the substring test [in];
  - Python numbers are [int] (unbounded, [Z]) or [float] (IEEE 754
    binary64, the specification floats of the standard library);
    true division and [int()] can raise;
  - the set of key terms of the generic branch is a finite set.

  Further parts of the backend follow: the fallback questions of
  [generate_topic_specific_questions] and of the stand-in crew, the
  two regular expressions and the JSON parsing of [generate_quiz], the
  handler of uncaught exceptions, and the course store of backend.py
  as functions from one state of [courses] to the next. *)

From Stdlib Require Import ZArith List String Ascii Bool Lia.
From Stdlib Require Import SpecFloat.
From stdpp Require Import gmap strings.
Import ListNotations.

Local Open Scope string_scope.

(** ** Python strings *)

Module PyStr.

(** [c.isspace()] for a code point below 256: the characters that
    [str.strip()] removes and on which [str.split()] cuts. *)
Definition isspace (c : ascii) : bool :=
  let n := N_of_ascii c in
  (((9 <=? n) && (n <=? 13)) || ((28 <=? n) && (n <=? 32))
   || (n =? 133) || (n =? 160))%N.

(** [c.lower()]: A-Z, and the Latin-1 capitals 192..222 but for the
    multiplication sign 215, move up by 32. *)
Definition lower_char (c : ascii) : ascii :=
  let n := N_of_ascii c in
  if (((65 <=? n) && (n <=? 90)) || ((192 <=? n) && (n <=? 214))
      || ((216 <=? n) && (n <=? 222)))%N
  then ascii_of_N (n + 32) else c.

(** [s.lower()]. On these code points it works character by character;
    on other code points [str.lower()] can lengthen a string (U+0130)
    and depends on what follows a letter (the capital sigma), so that
    no statement below relies on [len (lower s) = len s] or on
    [lower (a ++ b) = lower a ++ lower b]: where one is needed, it is a
    hypothesis. *)
Fixpoint lower (s : string) : string :=
  match s with
  | EmptyString => EmptyString
  | String c s' => String (lower_char c) (lower s')
  end.

Fixpoint lstrip (s : string) : string :=
  match s with
  | EmptyString => EmptyString
  | String c s' => if isspace c then lstrip s' else s
  end.

Fixpoint rstrip (s : string) : string :=
  match s with
  | EmptyString => EmptyString
  | String c s' =>
      match rstrip s' with
      | EmptyString => if isspace c then EmptyString else String c EmptyString
      | r => String c r
      end
  end.

(** [s.strip()] *)
Definition strip (s : string) : string := lstrip (rstrip s).

(** [len(s)] *)
Definition len (s : string) : nat := String.length s.

(** [needle in hay] on strings: substring containment. *)
Fixpoint contains (needle hay : string) : bool :=
  String.prefix needle hay
  || match hay with
     | EmptyString => false
     | String _ hay' => contains needle hay'
     end.

(** [s.split()]: the maximal runs of non-whitespace characters, in
    order; [cur] is the run being read. *)
Fixpoint split_from (cur : string) (s : string) : list string :=
  match s with
  | EmptyString => match cur with EmptyString => [] | _ => [cur] end
  | String c s' =>
      if isspace c then
        match cur with
        | EmptyString => split_from EmptyString s'
        | _ => cur :: split_from EmptyString s'
        end
      else split_from (cur ++ String c EmptyString) s'
  end.

Definition split (s : string) : list string := split_from EmptyString s.

(** [term in [w1, ..., wn]] on a list of strings. *)
Definition in_list (term : string) (ws : list string) : bool :=
  existsb (String.eqb term) ws.

(** A code point that UTF-8 has no encoding for: a surrogate,
    U+D800 to U+DFFF. A [str] can hold one (JSON escapes give them). *)
Definition surrogate (c : ascii) : bool :=
  let n := N_of_ascii c in ((55296 <=? n) && (n <=? 57343))%N.

(** [s.encode("utf-8")] does not raise [UnicodeEncodeError]. *)
Fixpoint encodable (s : string) : bool :=
  match s with
  | EmptyString => true
  | String c s' => negb (surrogate c) && encodable s'
  end.

End PyStr.

(** ** Python numbers and exceptions *)

Module PyNum.

Inductive exn := ZeroDivisionError | ValueError | OverflowError.

Inductive result (A : Type) :=
| Ok (a : A)
| Raise (e : exn).
Arguments Ok {A} a.
Arguments Raise {A} e.

Definition bind {A B} (r : result A) (k : A -> result B) : result B :=
  match r with
  | Ok a => k a
  | Raise e => Raise e
  end.

(** binary64 *)
Definition prec : Z := 53.
Definition emax : Z := 1024.

Inductive num :=
| Int (z : Z)
| Float (f : spec_float).

(** An integer as an exact, not yet rounded, binary number. *)
Definition exact_of_int (z : Z) : spec_float :=
  match z with
  | Z0 => S754_zero false
  | Zpos p => S754_finite false p 0
  | Zneg p => S754_finite true p 0
  end.

Definition is_infinity (f : spec_float) : bool :=
  match f with S754_infinity _ => true | _ => false end.

(** [float(z)]: the nearest double, [OverflowError] beyond the range. *)
Definition float_of_int (z : Z) : result spec_float :=
  let f := binary_normalize prec emax z 0 false in
  if is_infinity f then Raise OverflowError else Ok f.

(** [a / b] on two ints: the correctly rounded quotient. *)
Definition truediv (a b : Z) : result num :=
  if (b =? 0)%Z then Raise ZeroDivisionError
  else
    let f := SFdiv prec emax (exact_of_int a) (exact_of_int b) in
    if is_infinity f then Raise OverflowError else Ok (Float f).

(** [x * y] *)
Definition mul (x y : num) : result num :=
  match x, y with
  | Int a, Int b => Ok (Int (a * b))
  | Float f, Int b =>
      bind (float_of_int b) (fun g => Ok (Float (SFmul prec emax f g)))
  | Int a, Float g =>
      bind (float_of_int a) (fun f => Ok (Float (SFmul prec emax f g)))
  | Float f, Float g => Ok (Float (SFmul prec emax f g))
  end.

(** [int(x)]: truncation toward zero. *)
Definition int (x : num) : result Z :=
  match x with
  | Int z => Ok z
  | Float (S754_zero _) => Ok 0%Z
  | Float (S754_finite s m e) =>
      let t := Z.shiftl (Zpos m) e in
      Ok (if s then (- t)%Z else t)
  | Float (S754_infinity _) => Raise OverflowError
  | Float S754_nan => Raise ValueError
  end.

(** [int((k / n) * 100)], the percentage the scorer truncates. *)
Definition percent (k n : Z) : result Z :=
  bind (truediv k n) (fun ratio =>
  bind (mul ratio (Int 100)) (fun product => int product)).

(** The non-negative float of mantissa [m] and exponent [e]. *)
Definition mantissa_float (m e : Z) : spec_float :=
  match m with
  | Z0 => S754_zero false
  | Zpos p => S754_finite false p e
  | Zneg _ => S754_nan
  end.

(** [percent k n = Ok (100 * k / n)] for every [0 <= k <= n], checked
    from [n] down to 1. *)
Fixpoint percent_exact_upto (n : nat) : bool :=
  match n with
  | O => true
  | S n' =>
      forallb (fun k =>
                 match percent (Z.of_nat k) (Z.of_nat n) with
                 | Ok t => (t =? 100 * Z.of_nat k / Z.of_nat n)%Z
                 | Raise _ => false
                 end)
              (seq 0 (S n))
      && percent_exact_upto n'
  end.

End PyNum.


Module Import Notations.
Notation "'let*' x := c1 'in' c2" := (PyNum.bind c1 (fun x => c2))
  (at level 10, x name, c1 at level 100, c2 at level 200).
End Notations.

(** ** The answer-analysis heuristic *)

Module Analysis.
Import PyStr PyNum.

Local Open Scope Z_scope.

(** The dict returned by [analyze_student_answer]. The keys
    ["matched_keywords"] and ["expected_keywords_count"] are set on the
    main return only: [None] is an absent key. *)
Record analysis := {
  is_correct : bool;
  score : Z;
  feedback : string;
  question : string;
  answer : string;
  matched_keywords : option Z;
  expected_keywords_count : option Z
}.

(** [not s] on a string *)
Definition is_empty (s : string) : bool :=
  match s with EmptyString => true | _ => false end.

(** [not l] on a list *)
Definition is_nil {A} (l : list A) : bool :=
  match l with [] => true | _ => false end.

Definition stopwords : list string :=
  ["what"; "explain"; "describe"; "discuss"; "how"; "when"; "where";
   "which"; "this"; "that"; "these"; "those"].

(** The generic branch: the set [key_terms] after the two loops. *)
Definition key_terms (lecture_lower question_lower : string) : gset string :=
  let key_terms : gset string := ∅ in
  let key_terms :=
    fold_left (fun acc term =>
                 if (3 <? Z.of_nat (len term)) then {[ term ]} ∪ acc else acc)
              (split lecture_lower) key_terms in
  fold_left (fun acc term =>
               if (3 <? Z.of_nat (len term)) && negb (in_list term stopwords)
               then {[ term ]} ∪ acc else acc)
            (split question_lower) key_terms.

(** The value of [expected_keywords] after the topic dispatch. *)
Definition expected_keywords
    (question_lower lecture_lower course_lower : string) : list string :=
  (* Python-related questions *)
  if contains "python" question_lower || contains "python" lecture_lower then
    if contains "feature" question_lower || contains "popular" question_lower then
      ["readability"; "easy"; "simple"; "libraries"; "versatile"; "interpreted"]
    else if contains "variable" question_lower then
      ["dynamic"; "typing"; "declaration"; "assignment"; "type"]
    else if contains "list" question_lower && contains "tuple" question_lower then
      ["mutable"; "immutable"; "parentheses"; "brackets"; "modify"]
    else if contains "module" question_lower || contains "package" question_lower then
      ["import"; "organization"; "reuse"; "namespace"; "library"]
    else if contains "exception" question_lower then
      ["try"; "except"; "catch"; "handle"; "error"; "finally"]
    else []
  (* Machine Learning-related questions *)
  else if contains "machine learning" question_lower
          || contains "machine learning" lecture_lower
          || contains "machine learning" course_lower then
    if contains "differ" question_lower || contains "traditional" question_lower then
      ["data"; "patterns"; "algorithm"; "explicit"; "programming"; "learn"]
    else if contains "supervised" question_lower && contains "unsupervised" question_lower then
      ["labeled"; "unlabeled"; "target"; "classification"; "clustering"]
    else if contains "training" question_lower && contains "test" question_lower then
      ["generalization"; "validation"; "overfitting"; "performance"; "evaluate"]
    else if contains "overfitting" question_lower then
      ["regularization"; "validation"; "generalize"; "complex"; "flexible"]
    else if contains "evaluation" question_lower || contains "metric" question_lower then
      ["accuracy"; "precision"; "recall"; "f1"; "auc"; "roc"]
    else []
  (* Neural Network-related questions *)
  else if contains "neural" question_lower
          || contains "deep learning" lecture_lower
          || contains "deep learning" course_lower then
    if contains "basic structure" question_lower || contains "structure" question_lower then
      ["input"; "hidden"; "output"; "layer"; "weight"; "bias"; "neuron"]
    else if contains "activation" question_lower then
      ["relu"; "sigmoid"; "tanh"; "non-linear"; "function"]
    else if contains "cnn" question_lower || contains "convolutional" question_lower then
      ["filter"; "kernel"; "convolution"; "pooling"; "feature"; "image"]
    else if contains "backpropagation" question_lower then
      ["gradient"; "descent"; "error"; "weight"; "update"; "learning"]
    else if contains "transfer" question_lower then
      ["pretrained"; "model"; "feature"; "extraction"; "fine-tuning"]
    else []
  (* Data Analysis-related questions *)
  else if contains "data" question_lower
          || contains "analytics" lecture_lower
          || contains "analytics" course_lower then
    if contains "workflow" question_lower || contains "steps" question_lower then
      ["collection"; "cleaning"; "exploration"; "analysis"; "visualization";
       "interpretation"]
    else if contains "descriptive" question_lower && contains "inferential" question_lower then
      ["summarize"; "population"; "sample"; "hypothesis"; "testing"; "inference"]
    else if contains "missing" question_lower then
      ["imputation"; "deletion"; "mean"; "median"; "mode"; "regression"]
    else if contains "feature" question_lower && contains "engineering" question_lower then
      ["transformation"; "selection"; "creation"; "normalization"; "scaling"]
    else if contains "visualization" question_lower then
      ["chart"; "graph"; "plot"; "dashboard"; "histogram"; "scatter"]
    else []
  (* Generic questions *)
  else elements (key_terms lecture_lower question_lower).

Definition min_length : Z := 50.

(** [length_adequate = len(answer) >= min_length] *)
Definition length_adequate (answer : string) : bool :=
  min_length <=? Z.of_nat (len answer).

(** The guard of the first [if]: [not answer or answer.strip() == ""]. *)
Definition no_answer (answer : string) : bool :=
  is_empty answer || (strip answer =? "")%string.

Definition msg_no_answer : string :=
  "No answer provided. Please try to answer the question.".
Definition msg_too_brief : string :=
  "Your answer is too brief. Please provide a more detailed explanation.".
Definition msg_excellent : string :=
  "Excellent answer! You've covered all the key concepts thoroughly.".
Definition msg_good : string :=
  "Good answer. You've addressed most of the important points.".
Definition msg_partial : string :=
  "Partial answer. You've mentioned some relevant concepts, but missed others.".
Definition msg_needs_improvement : string :=
  "Your answer needs improvement. Try to include more specific details about key concepts.".

Definition analyze_student_answer
    (question answer lecture_title course_name : string) : result analysis :=
  (* Skip empty answers *)
  if no_answer answer then
    Ok {| is_correct := false;
          score := 0;
          feedback := msg_no_answer;
          question := question;
          answer := answer;
          matched_keywords := None;
          expected_keywords_count := None |}
  else
    let question_lower := lower question in
    let answer_lower := lower answer in
    let lecture_lower := lower lecture_title in
    let course_lower := lower course_name in
    let expected_keywords :=
      expected_keywords question_lower lecture_lower course_lower in
    (* Count how many expected keywords are in the answer *)
    let keyword_matches :=
      Z.of_nat (length (List.filter (fun keyword => contains keyword answer_lower)
                               expected_keywords)) in
    let length_adequate := length_adequate answer in
    let* sc :=
          (if is_nil expected_keywords then
             Ok (if length_adequate then 70 else 30, length_adequate)
           else
             let min_keywords_needed :=
               Z.min 3 (Z.of_nat (length expected_keywords)) in
             let* match_ratio :=
               (if negb (is_nil expected_keywords)
                then truediv keyword_matches (Z.of_nat (length expected_keywords))
                else Ok (Int 0)) in
             let* product := mul match_ratio (Int 100) in
             let* truncated := int product in
             let score := Z.min 100 (Z.max 0 truncated) in
             (* Penalize for inadequate length *)
             let score :=
               if negb length_adequate then Z.max 0 (score - 30) else score in
             Ok (score, 60 <=? score)) in
    let '(score, is_correct) := sc in
    let feedback :=
      if negb length_adequate then msg_too_brief
      else if 90 <=? score then msg_excellent
      else if 70 <=? score then msg_good
      else if 50 <=? score then msg_partial
      else msg_needs_improvement in
    Ok {| is_correct := is_correct;
          score := score;
          feedback := feedback;
          question := question;
          answer := answer;
          matched_keywords := Some keyword_matches;
          expected_keywords_count := Some (Z.of_nat (length expected_keywords)) |}.

End Analysis.

(** ** The [/analyze-answers] handler *)

Module Batch.
Import PyStr PyNum Analysis.

Local Open Scope Z_scope.

Record AnswerRequest := {
  lecture_title : string;
  course_name : string;
  questions : list string;
  answers : list string
}.

(** [JSONResponse(status_code, content)]; the content dict holds
    ["status"] and ["results"] always, ["message"] on the error
    responses and ["overall_score"] on success. *)
Record JSONResponse := {
  status_code : Z;
  status : string;
  message : option string;
  overall_score : option num;
  results : list analysis
}.

(** [str(e)] *)
Definition str_of_exn (e : exn) : string :=
  match e with
  | ZeroDivisionError => "division by zero"
  | ValueError => "cannot convert float NaN to integer"
  | OverflowError => "cannot convert float infinity to integer"
  end.

(** The [for] loop over [zip(request.questions, request.answers)],
    appending each analysis to [results]. *)
Fixpoint analyze_each (lecture_title course_name : string)
    (pairs : list (string * string)) : result (list analysis) :=
  match pairs with
  | [] => Ok []
  | (question, answer) :: rest =>
      let* analysis :=
        analyze_student_answer question answer lecture_title course_name in
      let* results := analyze_each lecture_title course_name rest in
      Ok (analysis :: results)
  end.

(** The body of the [try] block after the input validation. *)
Definition score_batch (request : AnswerRequest)
  : result (num * list analysis) :=
  let* results :=
    analyze_each (lecture_title request) (course_name request)
                 (combine (questions request) (answers request)) in
  let correct_count := Z.of_nat (length (List.filter is_correct results)) in
  let total_count := Z.of_nat (length results) in
  let* overall_score :=
    (if 0 <? total_count then
       let* ratio := truediv correct_count total_count in
       mul ratio (Int 100)
     else Ok (Int 0)) in
  Ok (overall_score, results).

(** [JSONResponse(...)] encodes its content as UTF-8 when it is built,
    inside the [try]: the encoder raises [UnicodeEncodeError] on a
    question or an answer that is not [encodable], which the results
    repeat. The other strings of the three contents are constants of
    the code and the texts of exceptions, in ASCII. *)
Definition results_encodable (results : list analysis) : bool :=
  forallb (fun r => encodable (question r) && encodable (answer r)) results.

(** [encode_error results] is [str(e)] for the [UnicodeEncodeError] of
    the encoder: it names the first surrogate and its position in the
    JSON text, which is not modelled. *)
Definition analyze_answers (encode_error : list analysis -> string)
    (request : AnswerRequest) : JSONResponse :=
  (* Input validation *)
  if negb (Nat.eqb (length (questions request)) (length (answers request))) then
    {| status_code := 400;
       status := "error";
       message := Some "Number of questions and answers must match";
       overall_score := None;
       results := [] |}
  else
    match score_batch request with
    | Ok (overall_score, results) =>
        if results_encodable results then
          {| status_code := 200;
             status := "success";
             message := None;
             overall_score := Some overall_score;
             results := results |}
        else
          {| status_code := 500;
             status := "error";
             message :=
               Some ("Failed to analyze answers: " ++ encode_error results);
             overall_score := None;
             results := [] |}
    | Raise e =>
        {| status_code := 500;
           status := "error";
           message := Some ("Failed to analyze answers: " ++ str_of_exn e);
           overall_score := None;
           results := [] |}
    end.

End Batch.


(** ** The rules as the specification words them *)

Module Spec.
Import PyStr PyNum Analysis.

Local Open Scope Z_scope.

(** [clamp(x, lo, hi)] *)
Definition clamp (x lo hi : Z) : Z := Z.min hi (Z.max lo x).

(** The number of expected keywords found in the lowercased answer. *)
Definition matched_count (keywords : list string) (answer : string) : Z :=
  Z.of_nat (length (List.filter (fun keyword => contains keyword (lower answer))
                           keywords)).

(** An integer [s] is a rounding to nearest of [100 * k / n]. *)
Definition nearest_percent (k n s : Z) : Prop :=
  2 * Z.abs (n * s - 100 * k) <= n.

(** The length penalty of the scorer. *)
Definition penalize (adequate : bool) (s : Z) : Z :=
  if adequate then s else Z.max 0 (s - 30).

(** The glossary's length adequacy: on the trimmed answer. *)
Definition trimmed_length_adequate (answer : string) : bool :=
  50 <=? Z.of_nat (len (strip answer)).

(** Every character is whitespace (true of the empty string). *)
Fixpoint all_space (s : string) : bool :=
  match s with
  | EmptyString => true
  | String c s' => isspace c && all_space s'
  end.

(** The feedback selector, a decision list on (score, lengthAdequate). *)
Definition feedback_rule (score : Z) (adequate : bool) : string :=
  if negb adequate then msg_too_brief
  else if 90 <=? score then msg_excellent
  else if 70 <=? score then msg_good
  else if 50 <=? score then msg_partial
  else msg_needs_improvement.

Inductive topic :=
| Python | MachineLearning | NeuralNetwork | DataAnalysis | Generic.

(** The topic branch taken, first match wins. *)
Definition topic_of (question_lower lecture_lower course_lower : string) : topic :=
  if contains "python" question_lower || contains "python" lecture_lower
  then Python
  else if contains "machine learning" question_lower
          || contains "machine learning" lecture_lower
          || contains "machine learning" course_lower
  then MachineLearning
  else if contains "neural" question_lower
          || contains "deep learning" lecture_lower
          || contains "deep learning" course_lower
  then NeuralNetwork
  else if contains "data" question_lower
          || contains "analytics" lecture_lower
          || contains "analytics" course_lower
  then DataAnalysis
  else Generic.

(** Some sub-pattern of the topic's branch matches the question. *)
Definition sub_pattern_matches (t : topic) (question_lower : string) : bool :=
  let has w := contains w question_lower in
  match t with
  | Python =>
      (has "feature" || has "popular") || has "variable"
      || (has "list" && has "tuple") || (has "module" || has "package")
      || has "exception"
  | MachineLearning =>
      (has "differ" || has "traditional")
      || (has "supervised" && has "unsupervised")
      || (has "training" && has "test") || has "overfitting"
      || (has "evaluation" || has "metric")
  | NeuralNetwork =>
      (has "basic structure" || has "structure") || has "activation"
      || (has "cnn" || has "convolutional")
      || has "backpropagation" || has "transfer"
  | DataAnalysis =>
      (has "workflow" || has "steps")
      || (has "descriptive" && has "inferential") || has "missing"
      || (has "feature" && has "engineering") || has "visualization"
  | Generic => false
  end.

(** A significant word: longer than 3 and not a stopword. *)
Definition significant (term : string) : bool :=
  (3 <? Z.of_nat (len term)) && negb (in_list term stopwords).

(** The generic keyword set with one filter for both sources. *)
Definition uniform_key_terms (lecture_lower question_lower : string)
  : gset string :=
  list_to_set (List.filter significant
                           (split lecture_lower ++ split question_lower)%list).

(** The score and verdict of an answered question, from the expected
    keywords [kws] and the answer: 70 or 30 by length when there is no
    keyword, else the truncated percentage of matched keywords, clamped
    and penalized, correct from 60 on. *)
Definition scored (kws : list string) (answer : string) (s : Z) (ok : bool)
  : Prop :=
  match kws with
  | [] => s = (if length_adequate answer then 70 else 30)
          /\ ok = length_adequate answer
  | _ :: _ =>
      exists t,
        percent (matched_count kws answer) (Z.of_nat (length kws)) = Ok t
        /\ 0 <= t
        /\ s = penalize (length_adequate answer) (clamp t 0 100)
        /\ ok = (60 <=? s)
  end.

(** The float [f] is the rational [p / q] exactly. *)
Definition float_is (f : spec_float) (p q : Z) : Prop :=
  match f with
  | S754_zero _ => p = 0
  | S754_finite s m e =>
      let m' := if s then Z.neg m else Z.pos m in
      if 0 <=? e then m' * 2 ^ e * q = p else m' * q = p * 2 ^ (- e)
  | _ => False
  end.

(** The non-negative float [f] is within [2 ^ (- j)] of the rational
    [p / q], where [q > 0]: both sides are scaled by [2 ^ 1200]. *)
Definition float_near (f : spec_float) (p q j : Z) : Prop :=
  match f with
  | S754_zero _ => Z.abs p * 2 ^ j <= q
  | S754_finite false m e =>
      -1200 <= e
      /\ Z.abs (Z.pos m * 2 ^ (e + 1200) * q - p * 2 ^ 1200) * 2 ^ j
         <= 2 ^ 1200 * q
  | _ => False
  end.

(** [100.0] *)
Definition hundred : spec_float := S754_finite false 7036874417766400 (-46).

(** [(correct / total) * 100] in binary64, [0] for an empty batch. *)
Definition percent_correct (correct total : Z) : num :=
  if 0 <? total then
    Float (SFmul prec emax
             (SFdiv prec emax (exact_of_int correct) (exact_of_int total))
             hundred)
  else Int 0.

(** The response to a request whose lists differ in length. *)
Definition mismatch_response : Batch.JSONResponse :=
  {| Batch.status_code := 400;
     Batch.status := "error";
     Batch.message := Some "Number of questions and answers must match";
     Batch.overall_score := None;
     Batch.results := [] |}.

(** The dict of the empty-answer return. *)
Definition no_answer_result (question answer : string) : analysis :=
  {| is_correct := false;
     score := 0;
     feedback := msg_no_answer;
     question := question;
     answer := answer;
     matched_keywords := None;
     expected_keywords_count := None |}.

End Spec.

(** ** Sample inputs *)

Module Samples.
Import Batch.

(** A three-letter answer followed by 47 spaces: 50 characters. *)
Definition padded_answer : string :=
  "yes" ++ string_of_list_ascii (repeat " "%char 47).

Definition long_answer : string :=
  "python is easy and simple with many libraries and it is versatile too".

(** Three answers of which one is judged correct. *)
Definition one_of_three : AnswerRequest :=
  {| lecture_title := "Python basics";
     course_name := "CS";
     questions := ["q1"; "q2"; "q3"];
     answers := ["a"; long_answer; " "] |}.

(** The scenario of the specification with mismatched lengths. *)
Definition mismatched : AnswerRequest :=
  {| lecture_title := "Intro to ML";
     course_name := "CS101";
     questions := ["q1"; "q2"];
     answers := ["a1"] |}.

End Samples.

(** ** The fallback question bank *)

Module Questions.
Import PyStr.

(** The four fixed lists of [generate_topic_specific_questions]; the
    mock crew returns the same four. *)
Definition python_questions : list string :=
  ["Explain the key features of Python that make it popular for beginners.";
   "How does Python handle variable declarations differently from languages like Java or C++?";
   "Describe the difference between lists and tuples in Python.";
   "What are Python modules and packages? How do they help with code organization?";
   "Explain how exception handling works in Python with try/except blocks."].

Definition machine_learning_questions : list string :=
  ["What is machine learning and how does it differ from traditional programming?";
   "Explain the difference between supervised and unsupervised learning.";
   "What is the purpose of splitting data into training and test sets?";
   "Describe the concept of overfitting and how to prevent it.";
   "What are some common evaluation metrics for machine learning models?"].

Definition neural_network_questions : list string :=
  ["Explain the basic structure of a neural network.";
   "What is the role of activation functions in neural networks?";
   "How do convolutional neural networks (CNNs) differ from regular neural networks?";
   "What is backpropagation and why is it important for training neural networks?";
   "Describe the concept of transfer learning in deep learning."].

Definition data_analysis_questions : list string :=
  ["What are the key steps in a typical data analysis workflow?";
   "Explain the difference between descriptive and inferential statistics.";
   "How do you handle missing data in a dataset?";
   "What is feature engineering and why is it important?";
   "Describe different visualization techniques and when you would use each one."].

(** The five f-strings of the default branch. *)
Definition default_questions (lecture_title course_name : string)
  : list string :=
  ["Explain the core concepts of " ++ lecture_title ++ ".";
   "How does " ++ lecture_title ++ " relate to other topics in "
     ++ course_name ++ "?";
   "What are the practical applications of " ++ lecture_title ++ "?";
   "Describe the challenges students often face when learning about "
     ++ lecture_title ++ ".";
   "How has the field of " ++ lecture_title ++ " evolved over time?"].

Definition generate_topic_specific_questions
    (lecture_title course_name : string) : list string :=
  let lecture_title := lower lecture_title in
  let course_name := lower course_name in
  if contains "python" lecture_title || contains "python" course_name then
    python_questions
  else if contains "machine learning" lecture_title
          || contains "machine learning" course_name then
    machine_learning_questions
  else if contains "neural" lecture_title
          || contains "deep learning" course_name then
    neural_network_questions
  else if contains "data" lecture_title || contains "analytics" course_name then
    data_analysis_questions
  else
    (* Default questions if topic doesn't match any specific categories *)
    default_questions lecture_title course_name.

(** [MockResult.generate_questions] of the stand-in crew: the same
    dispatch on the lower-cased arguments, the default questions built
    from the arguments as given, the list serialised by [json.dumps]. *)
Definition generate_questions (dumps : list string -> string)
    (lecture_title course_name : string) : string :=
  if contains "python" (lower lecture_title)
     || contains "python" (lower course_name) then
    dumps python_questions
  else if contains "machine learning" (lower lecture_title)
          || contains "machine learning" (lower course_name) then
    dumps machine_learning_questions
  else if contains "neural" (lower lecture_title)
          || contains "deep learning" (lower course_name) then
    dumps neural_network_questions
  else if contains "data" (lower lecture_title)
          || contains "analytics" (lower course_name) then
    dumps data_analysis_questions
  else
    dumps (default_questions lecture_title course_name).

End Questions.

(** ** The two regular expressions of the question parser *)

Module Re.

(** The patterns in use are sequences of literal characters and of the
    greedy and the lazy star over any character (the flag DOTALL is
    set), one star being group 1. *)
Inductive item :=
| Lit (c : ascii)
| Star (greedy : bool) (group : bool).

(** What is left of the pattern, [k], is matched after a star that has
    taken [taken]; the text of group 1 is [taken] if this star is the
    group, and comes from [k] otherwise. *)
Definition finish (group : bool) (k : string -> option (string * string))
    (taken s : string) : option (string * string) :=
  match k s with
  | Some (g, rest) => Some (if group then taken else g, rest)
  | None => None
  end.

(** A backtracking star: the greedy one takes all it can and gives
    characters back one by one, the lazy one takes them one by one. *)
Fixpoint star (greedy group : bool) (k : string -> option (string * string))
    (taken s : string) {struct s} : option (string * string) :=
  if greedy then
    match s with
    | String c s' =>
        match star greedy group k (taken ++ String c EmptyString) s' with
        | Some r => Some r
        | None => finish group k taken s
        end
    | EmptyString => finish group k taken s
    end
  else
    match finish group k taken s with
    | Some r => Some r
    | None =>
        match s with
        | String c s' => star greedy group k (taken ++ String c EmptyString) s'
        | EmptyString => None
        end
    end.

(** A match at the start of [s]: the text of group 1 and what is left
    of [s] after the match. *)
Fixpoint match_here (p : list item) : string -> option (string * string) :=
  match p with
  | [] => fun s => Some (EmptyString, s)
  | Lit c :: p' =>
      fun s =>
        match s with
        | String c' s' => if Ascii.eqb c c' then match_here p' s' else None
        | EmptyString => None
        end
  | Star greedy group :: p' => star greedy group (match_here p') EmptyString
  end.

(** [re.search(p, s)]: group 1 of the leftmost match. *)
Fixpoint search (p : list item) (s : string) : option string :=
  match match_here p s with
  | Some (g, _) => Some g
  | None =>
      match s with
      | String _ s' => search p s'
      | EmptyString => None
      end
  end.

(** [re.sub(p, repl, s)] where [repl] is group 1 in square brackets and
    [p] matches no empty string: the matches are replaced from left to
    right, the text between them is kept. [n] bounds the number of
    steps. *)
Fixpoint sub_from (p : list item) (n : nat) (s : string) : string :=
  match n with
  | O => s
  | S n' =>
      match match_here p s with
      | Some (g, rest) => "[" ++ g ++ "]" ++ sub_from p n' rest
      | None =>
          match s with
          | String c s' => String c (sub_from p n' s')
          | EmptyString => EmptyString
          end
      end
  end.

Definition sub (p : list item) (s : string) : string :=
  sub_from p (S (String.length s)) s.

(** The pattern of [re.search]: an opening bracket, group 1 (greedy,
    any characters), a closing bracket. *)
Definition brackets : list item :=
  [Lit "["%char; Star true true; Lit "]"%char].

(** The pattern of [re.sub]: a lazy star, then the pattern above, then
    a greedy star. *)
Definition brackets_anywhere : list item :=
  [Star false false; Lit "["%char; Star true true; Lit "]"%char;
   Star true false].

End Re.

(** ** Parsing the crew's answer in [generate_quiz] *)

Module Quiz.
Import Re Questions.

(** [raw_questions]: a [str], or an object that is used as it is. *)
Inductive raw (json : Type) :=
| RawStr (s : string)
| RawObj (j : json).
Arguments RawStr {json} s.
Arguments RawObj {json} j.

(** [questions]: what [json.loads] returned (or the object itself), or
    the list of [generate_topic_specific_questions]. *)
Inductive parsed (json : Type) :=
| Loaded (j : json)
| Fallback (qs : list string).
Arguments Loaded {json} j.
Arguments Fallback {json} qs.

(** The body of the inner [try]; [json_loads s = None] stands for a
    [JSONDecodeError]. *)
Definition first_parse {json : Type} (json_loads : string -> option json)
    (raw_questions : raw json) : option json :=
  match raw_questions with
  | RawStr s =>
      (* Find everything between square brackets if it's a string *)
      match search brackets s with
      | Some group1 => json_loads ("[" ++ group1 ++ "]")
      | None => json_loads s
      end
  | RawObj j => Some j
  end.

(** The inner [try] with its [except json.JSONDecodeError] handler. In
    the handler [re.sub] raises a [TypeError] on an object that is no
    string, which the [except Exception] catches like a second
    [JSONDecodeError]. *)
Definition parse_raw_questions {json : Type}
    (json_loads : string -> option json) (raw_questions : raw json)
    (lecture_title course_name : string) : parsed json :=
  match first_parse json_loads raw_questions with
  | Some questions => Loaded questions
  | None =>
      (* Try to clean the string more aggressively *)
      let retry :=
        match raw_questions with
        | RawStr s => json_loads (sub brackets_anywhere s)
        | RawObj _ => None
        end in
      match retry with
      | Some questions => Loaded questions
      | None =>
          Fallback (generate_topic_specific_questions lecture_title course_name)
      end
  end.

End Quiz.

(** ** The handler of uncaught exceptions *)

Module Handler.
Import PyStr Questions.

Local Open Scope Z_scope.

(** A JSON value: a string, or anything else. *)
Inductive value :=
| VStr (s : string)
| VOther.

(** [await request.json()]: it raises, or gives a value that is a dict
    or not. *)
Inductive body :=
| NoJson
| NotDict
| Dict (d : gmap string value).

Record response := {
  status_code : Z;
  status : string;
  message : string;
  traceback : string;
  questions : list string
}.

(** [exc_str] is [str(exc)] and [tb] is [traceback.format_exc()],
    texts of the interpreter that are taken to encode. The result is
    [None] when an exception leaves the handler: the [AttributeError]
    of [.lower()] on a value that is no string, or the
    [UnicodeEncodeError] of [JSONResponse(...)], which encodes its
    content when it is built, on questions that are not [encodable]
    (the default questions repeat the title and the course). *)
Definition global_exception_handler (request_json : body)
    (exc_str tb : string) : option response :=
  let '(lecture_title, course_name) :=
    match request_json with
    | Dict d =>
        (default (VStr "Unknown Topic") (d !! "lecture_title"),
         default (VStr "General Course") (d !! "course_name"))
    | _ => (VStr "Unknown Topic", VStr "General Course")
    end in
  match lecture_title, course_name with
  | VStr lecture_title, VStr course_name =>
      (* Generate topic-specific questions as a fallback *)
      let questions :=
        generate_topic_specific_questions lecture_title course_name in
      if forallb encodable questions then
        Some {| status_code := 500;
                status := "error";
                message := "Internal server error: " ++ exc_str;
                traceback := tb;
                questions := questions |}
      else None
  | _, _ => None
  end.

End Handler.

(** ** The course store of backend.py *)

Module Backend.

Local Open Scope Z_scope.

(** The exceptions that leave a handler. *)
Inductive error := AttributeError | KeyError | TypeError | ValueError | CrewError.

Section Courses.

(** [value]: the JSON values of a request and the result of the crew,
    compared by [==]; [str s] is the Python string [s]. *)
Context {value : Type} `{EqDecision value} (str : string -> value).

(** A course dict; ["updated_at"] is set by [update_course] only. *)
Record course := {
  id : Z;
  title : value;
  code : value;
  description : value;
  professor : value;
  created_at : string;
  ai_enhanced_description : value;
  updated_at : option string
}.

#[local] Instance course_eq_dec : EqDecision course.
Proof. solve_decision. Defined.

(** What is handed to [jsonify]. *)
Inductive content :=
| ErrorMessage (msg : string)
| Course (c : course)
| Courses (cs : list course).

(** [jsonify] gives the body of the answer, or raises a [TypeError]
    on a value that cannot be serialised ([None] here). *)
Context {json : Type} (jsonify : content -> option json).

(** An answer with its status and body (no body: the empty string),
    or an exception. *)
Inductive outcome :=
| Reply (status : Z) (body : option json)
| Raise (e : error).

(** [return jsonify(content), status] *)
Definition respond (status : Z) (c : content) : outcome :=
  match jsonify c with
  | Some body => Reply status (Some body)
  | None => Raise TypeError
  end.

(** [next((c for c in courses if c['id'] == course_id), None)] *)
Definition find_course (courses : list course) (course_id : Z)
  : option course :=
  List.find (fun c => id c =? course_id) courses.

(** [courses.remove(x)]: the first element equal to [x] is removed;
    [None] is the [ValueError] of a list without it. *)
Fixpoint remove (x : course) (courses : list course)
  : option (list course) :=
  match courses with
  | [] => None
  | c :: rest =>
      if decide (c = x) then Some rest
      else match remove x rest with
           | Some rest' => Some (c :: rest')
           | None => None
           end
  end.

(** The dict that [find_course] returns is changed in place: in the
    list, the first course of that id is the changed one. *)
Fixpoint update_first (course_id : Z) (course' : course)
    (courses : list course) : list course :=
  match courses with
  | [] => []
  | c :: rest =>
      if id c =? course_id then course' :: rest
      else c :: update_first course_id course' rest
  end.

Definition get_courses (courses : list course) : outcome :=
  respond 200 (Courses courses).

(** [data] is the JSON object of the request, [None] without one;
    [now] is [datetime.now().isoformat()]; [kickoff] is the result of
    [crew.kickoff()], [None] if it raises. The list returned is
    [courses] after the call. *)
Definition create_course (now : string) (kickoff : option value)
    (data : option (gmap string value)) (courses : list course)
  : list course * outcome :=
  match data with
  | None => (courses, respond 400 (ErrorMessage "Missing required fields"))
  | Some data =>
      if bool_decide (data = ∅) || negb (bool_decide (is_Some (data !! "title")))
      then (courses, respond 400 (ErrorMessage "Missing required fields"))
      else
        match data !! "title" with
        | None => (courses, Raise KeyError)
        | Some data_title =>
            (* Use AI to enhance course description *)
            match kickoff with
            | None => (courses, Raise CrewError)
            | Some result =>
                let new_course :=
                  {| id := Z.of_nat (length courses) + 1;
                     title := data_title;
                     code := default (str "") (data !! "code");
                     description := default (str "") (data !! "description");
                     professor := default (str "") (data !! "professor");
                     created_at := now;
                     ai_enhanced_description := result;
                     updated_at := None |} in
                ((courses ++ [new_course])%list, respond 201 (Course new_course))
            end
        end
  end.

Definition get_course (course_id : Z) (courses : list course) : outcome :=
  match find_course courses course_id with
  | None => respond 404 (ErrorMessage "Course not found")
  | Some course => respond 200 (Course course)
  end.

Definition update_course (now : string) (course_id : Z)
    (data : option (gmap string value)) (courses : list course)
  : list course * outcome :=
  match find_course courses course_id with
  | None => (courses, respond 404 (ErrorMessage "Course not found"))
  | Some course =>
      match data with
      | None => (courses, Raise AttributeError)
      | Some data =>
          let course' :=
            {| id := id course;
               title := default (title course) (data !! "title");
               code := default (code course) (data !! "code");
               description :=
                 default (description course) (data !! "description");
               professor := default (professor course) (data !! "professor");
               created_at := created_at course;
               ai_enhanced_description := ai_enhanced_description course;
               updated_at := Some now |} in
          (update_first course_id course' courses,
           respond 200 (Course course'))
      end
  end.

Definition delete_course (course_id : Z) (courses : list course)
  : list course * outcome :=
  match find_course courses course_id with
  | None => (courses, respond 404 (ErrorMessage "Course not found"))
  | Some course =>
      match remove course courses with
      | Some courses' => (courses', Reply 204 None)
      | None => (courses, Raise ValueError)
      end
  end.

(** The ids that [create_course] alone gives: 1, 2, ... in order. *)
Definition sequential_ids (courses : list course) : Prop :=
  map id courses = map Z.of_nat (seq 1 (length courses)).

End Courses.

End Backend.

(** * Proofs *)

Import PyNum PyStr Analysis Batch Spec Samples.
Local Open Scope string_scope.
Local Open Scope Z_scope.

(** ** Rounding in binary64 *)

Section Rounding.

Lemma digits2_pos_size (p : positive) : digits2_pos p = Pos.size p.
Proof. induction p; simpl; congruence. Qed.

Lemma Zdigits2_nonneg (m : Z) : 0 <= Zdigits2 m.
Proof. destruct m; simpl; lia. Qed.

(** A non-negative number is below two to its number of digits. *)
Lemma Zdigits2_gt (m : Z) : 0 <= m -> m < 2 ^ Zdigits2 m.
Proof.
  destruct m as [|p|p]; simpl; intros H; try lia.
  rewrite digits2_pos_size.
  pose proof (Pos.size_gt p) as Hs.
  rewrite <- Pos2Z.inj_pow. lia.
Qed.

(** ... and a number below [2 ^ D] has at most [D] digits. *)
Lemma Zdigits2_le (m D : Z) : 0 <= m -> m < 2 ^ D -> Zdigits2 m <= D.
Proof.
  destruct m as [|p|p]; simpl; intros H Hm; try lia.
  - destruct (Z.ltb_spec D 0) as [Hneg|]; [|lia].
    rewrite Z.pow_neg_r in Hm; lia.
  - rewrite digits2_pos_size.
    pose proof (Pos.size_le p) as Hs.
    destruct (Z.ltb_spec D (Z.pos (Pos.size p))) as [Hlt|]; [|lia].
    exfalso.
    assert (Hp : 2 ^ Z.pos (Pos.size p) <= 2 * Z.pos p).
    { rewrite <- Pos2Z.inj_pow. lia. }
    destruct (Z.ltb_spec D 0) as [Hneg|Hpos].
    { rewrite Z.pow_neg_r in Hm; lia. }
    assert (2 ^ (D + 1) <= 2 ^ Z.pos (Pos.size p)).
    { apply Z.pow_le_mono_r; lia. }
    rewrite Z.pow_add_r in H0 by lia. change (2 ^ 1) with 2 in H0. lia.
Qed.


(** One step of [shr_1] halves the mantissa. *)
Lemma shr_1_m (mrs : shr_record) :
  0 <= shr_m mrs -> shr_m (shr_1 mrs) = shr_m mrs / 2.
Proof.
  destruct mrs as [m r s]; simpl; intros Hm.
  rewrite <- Z.div2_div.
  destruct m as [|[p|p|]|p]; simpl; try reflexivity; lia.
Qed.

Lemma iter_pos_shr_1_m (n : positive) :
  forall mrs, 0 <= shr_m mrs ->
    shr_m (SpecFloat.iter_pos shr_1 n mrs) = shr_m mrs / 2 ^ Z.pos n.
Proof.
  assert (Hnn : forall a b, 0 <= a -> 0 < b -> 0 <= a / b).
  { intros. apply Z.div_pos; lia. }
  assert (Hpow : forall k, 0 < 2 ^ Z.pos k).
  { intros. apply Z.pow_pos_nonneg; lia. }
  induction n as [n IH|n IH|]; intros mrs Hm; simpl SpecFloat.iter_pos.
  - assert (H1 : 0 <= shr_m (shr_1 mrs)).
    { rewrite shr_1_m by assumption. apply Hnn; lia. }
    assert (H2 : 0 <= shr_m (SpecFloat.iter_pos shr_1 n (shr_1 mrs))).
    { rewrite IH by assumption. apply Hnn; auto. }
    rewrite IH, IH, shr_1_m by assumption.
    rewrite !Z.div_div by (auto; lia).
    f_equal.
    replace (Z.pos n~1) with (1 + Z.pos n + Z.pos n) by lia.
    rewrite !Z.pow_add_r by lia. change (2 ^ 1) with 2. lia.
  - assert (H2 : 0 <= shr_m (SpecFloat.iter_pos shr_1 n mrs)).
    { rewrite IH by assumption. apply Hnn; auto. }
    rewrite IH, IH by assumption.
    rewrite !Z.div_div by (auto; lia).
    f_equal.
    replace (Z.pos n~0) with (Z.pos n + Z.pos n) by lia.
    rewrite !Z.pow_add_r by lia. reflexivity.
  - rewrite shr_1_m by assumption. reflexivity.
Qed.

Lemma fexp_binary64 (x : Z) : fexp prec emax x = Z.max (x - 53) (-1074).
Proof. reflexivity. Qed.

Lemma shr_record_of_loc_m (m : Z) (l : location) :
  shr_m (shr_record_of_loc m l) = m.
Proof. destruct l as [|[]]; reflexivity. Qed.

(** [shr_fexp] moves the exponent up to the format's exponent and
    divides the mantissa accordingly. *)
Lemma shr_fexp_spec (m e : Z) (l : location) :
  0 <= m ->
  exists mrs e',
    shr_fexp prec emax m e l = (mrs, e')
    /\ e' = Z.max e (fexp prec emax (Zdigits2 m + e))
    /\ shr_m mrs = m / 2 ^ (e' - e).
Proof.
  intros Hm. unfold shr_fexp, shr.
  destruct (fexp prec emax (Zdigits2 m + e) - e) as [|p|p] eqn:Hn.
  - eexists _, _. split; [reflexivity|]. split; [lia|].
    rewrite shr_record_of_loc_m, Z.sub_diag, Z.div_1_r. reflexivity.
  - eexists _, _. split; [reflexivity|]. split; [lia|].
    rewrite iter_pos_shr_1_m by (rewrite shr_record_of_loc_m; exact Hm).
    rewrite shr_record_of_loc_m. do 2 f_equal. lia.
  - eexists _, _. split; [reflexivity|]. split; [lia|].
    rewrite shr_record_of_loc_m.
    replace (e - e) with 0 by lia. rewrite Z.div_1_r. reflexivity.
Qed.

Lemma round_nearest_even_bounds (m : Z) (l : location) :
  m <= round_nearest_even m l <= m + 1.
Proof.
  destruct l as [|[]]; simpl; try lia. destruct (Z.even m); lia.
Qed.

(** Dividing by a power of two keeps a number under the bound [2 ^ B]
    on its value. *)
Lemma div_pow2_lt (m e e' B : Z) :
  0 <= m -> m < 2 ^ (B - e) -> e <= e' -> e' <= B ->
  0 <= m / 2 ^ (e' - e) < 2 ^ (B - e').
Proof.
  intros Hm Hlt He He'.
  assert (Hp : 0 < 2 ^ (e' - e)) by (apply Z.pow_pos_nonneg; lia).
  split; [apply Z.div_pos; lia|].
  apply Z.div_lt_upper_bound; [exact Hp|].
  rewrite <- Z.pow_add_r by lia.
  replace (e' - e + (B - e')) with (B - e) by lia. exact Hlt.
Qed.

Lemma pow2_pos (x : Z) : 0 <= x -> 0 < 2 ^ x.
Proof. intros. apply Z.pow_pos_nonneg; lia. Qed.

(** Moving the exponent from [e] up to [e1] truncates: the shifted
    mantissa brackets the number from below, one more from above. *)
Lemma shift_bracket (m e e1 : Z) :
  0 <= m -> e <= e1 -> -1200 <= e ->
  (m / 2 ^ (e1 - e)) * 2 ^ (e1 + 1200) <= m * 2 ^ (e + 1200)
  /\ (m + 1) * 2 ^ (e + 1200) <= (m / 2 ^ (e1 - e) + 1) * 2 ^ (e1 + 1200).
Proof.
  intros Hm He He0.
  replace (e1 + 1200) with ((e1 - e) + (e + 1200)) by lia.
  rewrite Z.pow_add_r by lia.
  pose proof (pow2_pos (e1 - e) ltac:(lia)) as HP.
  pose proof (pow2_pos (e + 1200) ltac:(lia)) as HS.
  pose proof (Z.mul_div_le m (2 ^ (e1 - e)) HP) as Hlo.
  pose proof (Z.mul_succ_div_gt m (2 ^ (e1 - e)) HP) as Hhi.
  set (P := 2 ^ (e1 - e)) in *. set (S := 2 ^ (e + 1200)) in *.
  set (m1 := m / P) in *.
  split; nia.
Qed.

(** What [binary_round_aux] computes on a non-negative number below
    [2 ^ B]: the two exponents, the truncated and the rounded
    mantissa. *)
Lemma binary_round_aux_spec (B m e : Z) (l : location) :
  0 <= m -> m < 2 ^ (B - e) -> e <= emax - prec ->
  -1074 <= B <= 1023 ->
  exists e1 m2 e2,
    let m1 := m / 2 ^ (e1 - e) in
    let m3 := m2 / 2 ^ (e2 - e1) in
    e <= e1 /\ e1 <= e2
    /\ m1 <= m2 <= m1 + 1
    /\ e2 <= Z.max e (Z.max (B - 52) (-1074))
    /\ 0 <= m3 < 2 ^ (B + 1 - e2)
    /\ binary_round_aux prec emax false m e l = mantissa_float m3 e2.
Proof.
  intros Hm Hlt He HB.
  assert (HeB : e <= B).
  { destruct (Z.leb_spec e B); [assumption|].
    rewrite Z.pow_neg_r in Hlt; lia. }
  unfold binary_round_aux.
  destruct (shr_fexp_spec m e l Hm) as (mrs1 & e1 & -> & He1 & Hm1).
  pose proof (Zdigits2_le m (B - e) Hm Hlt) as Hd.
  pose proof (Zdigits2_nonneg m) as Hd0.
  rewrite fexp_binary64 in He1.
  unfold emax, prec in He.
  assert (He1B : e <= e1 <= B /\ e1 <= 971) by lia.
  pose proof (div_pow2_lt m e e1 B Hm Hlt ltac:(lia) ltac:(lia)) as Hq.
  rewrite <- Hm1 in Hq.
  pose proof (round_nearest_even_bounds (shr_m mrs1) (loc_of_shr_record mrs1)) as Hr.
  set (m2 := round_nearest_even (shr_m mrs1) (loc_of_shr_record mrs1)) in *.
  assert (Hm2 : 0 <= m2) by lia.
  assert (Hlt2 : m2 < 2 ^ (B + 1 - e1)).
  { replace (B + 1 - e1) with (1 + (B - e1)) by lia.
    rewrite Z.pow_add_r by lia. change (2 ^ 1) with 2. lia. }
  destruct (shr_fexp_spec m2 e1 loc_Exact Hm2) as (mrs2 & e2 & -> & He2 & Hm3).
  pose proof (Zdigits2_le m2 (B + 1 - e1) Hm2 Hlt2) as Hd2.
  pose proof (Zdigits2_nonneg m2) as Hd20.
  rewrite fexp_binary64 in He2.
  pose proof (div_pow2_lt m2 e1 e2 (B + 1) Hm2 Hlt2 ltac:(lia) ltac:(lia)) as Hq2.
  rewrite <- Hm3 in Hq2.
  exists e1, m2, e2. cbv zeta. rewrite <- Hm1, <- Hm3.
  repeat split; try lia.
  destruct (shr_m mrs2) as [|p|p]; cbn [mantissa_float]; [reflexivity| |lia].
  replace (e2 <=? emax - prec) with true
    by (symmetry; apply Z.leb_le; unfold emax, prec; lia).
  reflexivity.
Qed.

(** The rounding error is at most two units in the last place: [V / D]
    is the number rounded, scaled by [2 ^ 1200]. *)
Lemma binary_round_aux_error (B m e : Z) (l : location) (V D : Z) :
  0 <= m -> m < 2 ^ (B - e) -> e <= emax - prec ->
  -1074 <= B <= 1023 ->
  -1200 <= e -> 0 < D ->
  m * 2 ^ (e + 1200) * D <= V < (m + 1) * 2 ^ (e + 1200) * D ->
  exists m3 e2,
    binary_round_aux prec emax false m e l = mantissa_float m3 e2
    /\ 0 <= m3 < 2 ^ (B + 1 - e2)
    /\ e <= e2 <= Z.max e (Z.max (B - 52) (-1074))
    /\ Z.abs (m3 * 2 ^ (e2 + 1200) * D - V) <= 2 ^ (e2 + 1201) * D.
Proof.
  intros Hm Hlt He HB He0 HD HV.
  destruct (binary_round_aux_spec B m e l Hm Hlt He HB)
    as (e1 & m2 & e2 & He1 & He2 & Hm2 & He2' & Hm3 & Hres).
  cbv zeta in *.
  exists (m2 / 2 ^ (e2 - e1)), e2.
  split; [exact Hres|]. split; [exact Hm3|]. split; [lia|].
  destruct (shift_bracket m e e1 Hm He1 He0) as [Hlo1 Hhi1].
  assert (Hm1 : 0 <= m / 2 ^ (e1 - e))
    by (apply Z.div_pos; [lia|apply pow2_pos; lia]).
  destruct (shift_bracket m2 e1 e2 ltac:(lia) He2 ltac:(lia)) as [Hlo2 Hhi2].
  assert (Hdouble : 2 ^ (e2 + 1201) = 2 * 2 ^ (e2 + 1200)).
  { replace (e2 + 1201) with (Z.succ (e2 + 1200)) by lia.
    apply Z.pow_succ_r. lia. }
  rewrite Hdouble. clear Hdouble.
  assert (HS12 : 2 ^ (e1 + 1200) <= 2 ^ (e2 + 1200))
    by (apply Z.pow_le_mono_r; lia).
  pose proof (pow2_pos (e1 + 1200) ltac:(lia)) as HS1.
  pose proof (pow2_pos (e + 1200) ltac:(lia)) as HS0.
  set (S0 := 2 ^ (e + 1200)) in *.
  set (S1 := 2 ^ (e1 + 1200)) in *.
  set (S2 := 2 ^ (e2 + 1200)) in *.
  set (m1 := m / 2 ^ (e1 - e)) in *.
  set (m3 := m2 / 2 ^ (e2 - e1)) in *.
  assert (Hb1 : m1 * S1 * D <= V < (m1 + 1) * S1 * D).
  { pose proof (Z.mul_le_mono_nonneg_r _ _ D ltac:(lia) Hlo1).
    pose proof (Z.mul_le_mono_nonneg_r _ _ D ltac:(lia) Hhi1). lia. }
  assert (Hb2 : Z.abs (m2 * S1 * D - V) <= S1 * D).
  { assert (Hc : m2 = m1 \/ m2 = m1 + 1) by lia.
    destruct Hc as [-> | ->]; lia. }
  assert (Hb3 : Z.abs (m3 * S2 - m2 * S1) <= S2) by lia.
  assert (Hb4 : Z.abs (m3 * S2 * D - m2 * S1 * D) <= S2 * D).
  { replace (m3 * S2 * D - m2 * S1 * D) with ((m3 * S2 - m2 * S1) * D) by ring.
    rewrite Z.abs_mul, (Z.abs_eq D) by lia.
    apply Z.mul_le_mono_nonneg_r; lia. }
  pose proof (Z.mul_le_mono_nonneg_r _ _ D ltac:(lia) HS12). lia.
Qed.


(** The quotient that [SFdiv] rounds for two positive integers
    [k <= n], with its exponent. *)
Lemma SFdiv_core_binary_bracket (k n : positive) :
  Z.pos k <= Z.pos n ->
  exists q e' l,
    SFdiv_core_binary prec emax (Z.pos k) 0 (Z.pos n) 0 = (q, e', l)
    /\ -1074 <= e' <= -53
    /\ 0 <= q < 2 ^ (1 - e')
    /\ q * Z.pos n <= Z.pos k * 2 ^ (- e') < (q + 1) * Z.pos n.
Proof.
  intros Hkn. unfold SFdiv_core_binary.
  set (e' := Z.min _ (0 - 0)).
  assert (He' : -1074 <= e' <= -53).
  { subst e'. rewrite fexp_binary64.
    pose proof (Zdigits2_gt (Z.pos n) ltac:(lia)) as Hn.
    pose proof (Zdigits2_le (Z.pos k) (Zdigits2 (Z.pos n)) ltac:(lia)
                  ltac:(lia)) as Hd.
    lia. }
  set (m' := match 0 - 0 - e' with
             | 0 => Z.pos k
             | Z.pos _ => Z.shiftl (Z.pos k) (0 - 0 - e')
             | Z.neg _ => 0
             end).
  assert (Hm' : m' = Z.pos k * 2 ^ (- e')).
  { subst m'. replace (0 - 0 - e') with (- e') by lia.
    destruct (- e') as [|p|p] eqn:Hs; try lia.
    rewrite Z.shiftl_mul_pow2 by lia. reflexivity. }
  destruct (Z.div_eucl m' (Z.pos n)) as [q r] eqn:Hqr.
  assert (Hq : q = m' / Z.pos n) by (unfold Z.div; rewrite Hqr; reflexivity).
  exists q, e', (new_location (Z.pos n) r).
  split; [reflexivity|]. split; [exact He'|].
  pose proof (pow2_pos (- e') ltac:(lia)) as Hp.
  assert (Hm0 : 0 <= m') by (rewrite Hm'; nia).
  pose proof (Z.mul_div_le m' (Z.pos n) ltac:(lia)) as Hlo.
  pose proof (Z.mul_succ_div_gt m' (Z.pos n) ltac:(lia)) as Hhi.
  rewrite <- Hq in Hlo, Hhi. rewrite <- Hm'.
  assert (Hle : q <= 2 ^ (- e')).
  { rewrite Hq. apply Z.div_le_upper_bound; [lia|]. rewrite Hm'. nia. }
  split; [|lia]. split.
  - rewrite Hq. apply Z.div_pos; lia.
  - replace (1 - e') with (Z.succ (- e')) by lia.
    rewrite Z.pow_succ_r by lia. lia.
Qed.

Lemma is_infinity_mantissa_float (m e : Z) :
  is_infinity (mantissa_float m e) = false.
Proof. destruct m; reflexivity. Qed.

(** [k / n] for [0 <= k <= n], [0 < n]: the float returned is within
    [2 ^ (e + 1)] of the quotient, [e <= -51] its exponent. *)
Lemma truediv_accurate (k n : Z) :
  0 <= k <= n -> 0 < n ->
  exists m e,
    truediv k n = Ok (Float (mantissa_float m e))
    /\ 0 <= m < 2 ^ (2 - e)
    /\ -1074 <= e <= -51
    /\ Z.abs (m * 2 ^ (e + 1200) * n - k * 2 ^ 1200) <= 2 ^ (e + 1201) * n.
Proof.
  intros Hk Hn. unfold truediv.
  destruct (Z.eqb_spec n 0) as [|_]; [lia|].
  destruct n as [|pn|pn]; try lia.
  destruct k as [|pk|pk]; try lia.
  - exists 0, (-1074). split; [reflexivity|].
    split; [split; [lia|apply pow2_pos; lia]|]. split; [lia|].
    cbn [Z.mul Z.sub Z.opp Z.abs].
    pose proof (pow2_pos (-1074 + 1201) ltac:(lia)). nia.
  - cbn [exact_of_int SFdiv xorb].
    destruct (SFdiv_core_binary_bracket pk pn ltac:(lia))
      as (q & e' & l & -> & He' & Hq & Hqn).
    assert (HV : q * 2 ^ (e' + 1200) * Z.pos pn <= Z.pos pk * 2 ^ 1200
                 < (q + 1) * 2 ^ (e' + 1200) * Z.pos pn).
    { assert (HW : 2 ^ 1200 = 2 ^ (- e') * 2 ^ (e' + 1200)).
      { rewrite <- Z.pow_add_r by lia. f_equal. lia. }
      rewrite HW. clear HW.
      pose proof (pow2_pos (e' + 1200) ltac:(lia)) as HS.
      set (S := 2 ^ (e' + 1200)) in *. set (P := 2 ^ (- e')) in *.
      split; nia. }
    destruct (binary_round_aux_error 1 q e' l (Z.pos pk * 2 ^ 1200) (Z.pos pn)
                ltac:(lia) ltac:(lia) ltac:(unfold emax, prec; lia)
                ltac:(lia) ltac:(lia) ltac:(lia) HV)
      as (m3 & e2 & -> & Hm3 & He2 & Herr).
    rewrite is_infinity_mantissa_float.
    exists m3, e2. split; [reflexivity|].
    split; [exact Hm3|]. split; [lia|exact Herr].
Qed.

(** [float(100)] *)
Lemma float_of_int_100 :
  float_of_int 100 = Ok (S754_finite false 7036874417766400 (-46)).
Proof. reflexivity. Qed.

(** [x * 100] for such a float [x]: within [2 ^ (e' + 1)] of the
    product, [e' <= -43] the exponent of the result. *)
Lemma mul_100_accurate (m e : Z) :
  0 <= m < 2 ^ (2 - e) -> -1074 <= e <= -51 ->
  exists m' e',
    mul (Float (mantissa_float m e)) (Int 100)
    = Ok (Float (mantissa_float m' e'))
    /\ 0 <= m' /\ -1200 <= e' <= -43
    /\ Z.abs (m' * 2 ^ (e' + 1200) - 100 * (m * 2 ^ (e + 1200)))
       <= 2 ^ (e' + 1201).
Proof.
  intros Hm He. unfold mul. rewrite float_of_int_100. cbn [bind].
  destruct m as [|p|p]; [| |lia].
  - exists 0, (-43). split; [reflexivity|]. split; [lia|]. split; [lia|].
    cbn. lia.
  - cbn [mantissa_float SFmul xorb].
    assert (Hlt : Z.pos (p * 7036874417766400) < 2 ^ (9 - (e + -46))).
    { replace (9 - (e + -46)) with (2 - e + 53) by lia.
      rewrite Z.pow_add_r by lia. rewrite Pos2Z.inj_mul.
      assert (Z.pos 7036874417766400 < 2 ^ 53) by reflexivity.
      pose proof (pow2_pos (2 - e) ltac:(lia)). nia. }
    set (M := Z.pos (p * 7036874417766400)) in *.
    destruct (binary_round_aux_error 9 M (e + -46) loc_Exact
                (M * 2 ^ (e + -46 + 1200)) 1
                ltac:(subst M; lia) Hlt ltac:(unfold emax, prec; lia)
                ltac:(lia) ltac:(lia) ltac:(lia)
                ltac:(pose proof (pow2_pos (e + -46 + 1200) ltac:(lia)); nia))
      as (m3 & e2 & -> & Hm3 & He2 & Herr).
    exists m3, e2. split; [reflexivity|]. split; [lia|]. split; [lia|].
    rewrite !Z.mul_1_r in Herr.
    replace (100 * (Z.pos p * 2 ^ (e + 1200)))
      with (M * 2 ^ (e + -46 + 1200)); [exact Herr|].
    subst M. rewrite Pos2Z.inj_mul.
    assert (HW : 2 ^ (e + 1200) = 2 ^ 46 * 2 ^ (e + -46 + 1200)).
    { rewrite <- Z.pow_add_r by lia. f_equal. lia. }
    rewrite HW. change (Z.pos 7036874417766400) with (100 * 2 ^ 46). ring.
Qed.


(** The product [(k / n) * 100] in binary64 is within [2 ^ -41] of
    [100 * k / n]. *)
Lemma percent_product_accurate (k n : Z) :
  0 <= k <= n -> 0 < n ->
  exists m e,
    (let* ratio := truediv k n in mul ratio (Int 100))
    = Ok (Float (mantissa_float m e))
    /\ 0 <= m /\ -1200 <= e <= -43
    /\ Z.abs (m * 2 ^ (e + 1200) * n - 100 * k * 2 ^ 1200) * 2 ^ 41
       <= 2 ^ 1200 * n.
Proof.
  intros Hk Hn.
  destruct (truediv_accurate k n Hk Hn) as (mf & ef & -> & Hmf & Hef & Hf).
  cbn [bind].
  destruct (mul_100_accurate mf ef Hmf Hef) as (mg & eg & -> & Hmg & Heg & Hg).
  exists mg, eg. split; [reflexivity|]. split; [exact Hmg|].
  split; [exact Heg|].
  assert (HX : 0 < 2 ^ 1150) by (apply pow2_pos; lia).
  assert (HW : 2 ^ 1200 = 2 ^ 50 * 2 ^ 1150) by (rewrite <- Z.pow_add_r; lia).
  assert (Hf' : 2 ^ (ef + 1201) <= 2 ^ 1150) by (apply Z.pow_le_mono_r; lia).
  assert (Hg' : 2 ^ (eg + 1201) <= 2 ^ 8 * 2 ^ 1150).
  { rewrite <- Z.pow_add_r by lia. apply Z.pow_le_mono_r; lia. }
  rewrite HW in *.
  set (X := 2 ^ 1150) in *.
  set (A := mf * 2 ^ (ef + 1200)) in *.
  set (G := mg * 2 ^ (eg + 1200)) in *.
  assert (E1 : Z.abs (A * n - k * (2 ^ 50 * X)) <= X * n).
  { pose proof (Z.mul_le_mono_nonneg_r _ _ n ltac:(lia) Hf'). lia. }
  assert (E2 : Z.abs (G * n - 100 * A * n) <= 2 ^ 8 * X * n).
  { replace (G * n - 100 * A * n) with ((G - 100 * A) * n) by ring.
    rewrite Z.abs_mul, (Z.abs_eq n) by lia.
    apply Z.mul_le_mono_nonneg_r; lia. }
  assert (HXn : 0 < X * n) by (apply Z.mul_pos_pos; lia).
  change (2 ^ 8) with 256 in E2. change (2 ^ 50) with 1125899906842624 in *.
  change (2 ^ 41) with 2199023255552.
  lia.
Qed.

Lemma shiftl_mantissa (m e : Z) :
  0 <= m -> e <= 0 -> Z.shiftl m e = m / 2 ^ (- e).
Proof.
  intros Hm He. rewrite <- (Z.opp_involutive e) at 1.
  rewrite Z.shiftl_opp_r. apply Z.shiftr_div_pow2. lia.
Qed.

(** [int] truncates a float of negative exponent. *)
Lemma int_mantissa_float (m e : Z) :
  0 <= m -> e <= 0 -> int (Float (mantissa_float m e)) = Ok (m / 2 ^ (- e)).
Proof.
  intros Hm He. destruct m as [|p|p]; [| |lia].
  - reflexivity.
  - cbn [mantissa_float int]. rewrite shiftl_mantissa by lia. reflexivity.
Qed.

(** The truncated percentage is the integer quotient [100 * k / n], or
    one less; it is the quotient when the division is not exact. *)
Lemma percent_truncation (k n : Z) :
  0 <= k <= n -> 0 < n < 2 ^ 41 ->
  exists t,
    percent k n = Ok t
    /\ 100 * k / n - 1 <= t <= 100 * k / n
    /\ ((100 * k) mod n <> 0 -> t = 100 * k / n).
Proof.
  intros Hk Hn.
  destruct (percent_product_accurate k n Hk ltac:(lia))
    as (m & e & Hp & Hm & He & Herr).
  unfold percent.
  destruct (truediv k n) as [ratio|]; [|discriminate]. cbn [bind] in *.
  rewrite Hp. cbn [bind]. rewrite int_mantissa_float by lia.
  eexists. split; [reflexivity|].
  pose proof (pow2_pos (- e) ltac:(lia)) as HP.
  pose proof (pow2_pos (e + 1200) ltac:(lia)) as HS.
  pose proof (Z.mul_div_le m (2 ^ (- e)) HP) as Hlo.
  pose proof (Z.mul_succ_div_gt m (2 ^ (- e)) HP) as Hhi.
  assert (HW : 2 ^ 1200 = 2 ^ (- e) * 2 ^ (e + 1200)).
  { rewrite <- Z.pow_add_r by lia. f_equal. lia. }
  pose proof (Z.div_mod (100 * k) n ltac:(lia)) as Hdm.
  pose proof (Z.mod_pos_bound (100 * k) n ltac:(lia)) as Hr.
  set (t := m / 2 ^ (- e)) in *.
  set (F := 100 * k / n) in *. set (r := (100 * k) mod n) in *.
  set (P := 2 ^ (- e)) in *. set (S := 2 ^ (e + 1200)) in *.
  set (W := 2 ^ 1200) in *.
  assert (HW0 : 0 < W) by (rewrite HW; nia).
  assert (HG : t * W <= m * S < (t + 1) * W).
  { rewrite HW. split; nia. }
  set (G := m * S) in *.
  change (2 ^ 41) with 2199023255552 in *.
  assert (Hup : t <= F).
  { destruct (Z.le_gt_cases t F) as [|Hgt]; [assumption|exfalso].
    assert (H1 : (F + 1) * W <= G) by nia.
    assert (H2 : (F + 1) * W * n <= G * n)
      by (apply Z.mul_le_mono_nonneg_r; lia).
    assert (H3 : (100 * k + 1) * W <= (F + 1) * W * n) by nia.
    assert (H4 : W * n < W * 2199023255552)
      by (apply Z.mul_lt_mono_pos_l; lia).
    lia. }
  assert (Hdown : F - 1 <= t).
  { destruct (Z.le_gt_cases (F - 1) t) as [|Hlt]; [assumption|exfalso].
    assert (H1 : G < (F - 1) * W) by nia.
    assert (H2 : G * n < (F - 1) * W * n)
      by (apply Z.mul_lt_mono_pos_r; lia).
    assert (H3 : (F - 1) * W * n <= (100 * k) * W - n * W) by nia.
    assert (H4 : 0 < W * n) by (apply Z.mul_pos_pos; lia).
    lia. }
  split; [lia|]. intros Hr0.
  destruct (Z.le_gt_cases F t) as [|Hlt]; [lia|exfalso].
  assert (Ht : t = F - 1) by lia.
  assert (H1 : G < F * W) by (rewrite Ht in HG; lia).
  assert (H2 : G * n < F * W * n) by (apply Z.mul_lt_mono_pos_r; lia).
  assert (H3 : F * W * n <= (100 * k) * W - W) by nia.
  assert (H4 : W * n < W * 2199023255552)
    by (apply Z.mul_lt_mono_pos_l; lia).
  lia.
Qed.

(** The percentage of [k] out of [n >= k]: no exception. *)
Lemma percent_ok (k n : Z) :
  0 <= k <= n -> 0 < n -> exists t, percent k n = Ok t /\ 0 <= t.
Proof.
  intros Hk Hn.
  destruct (percent_product_accurate k n Hk Hn) as (m & e & Hp & Hm & He & _).
  unfold percent.
  destruct (truediv k n) as [ratio|]; [|discriminate]. cbn [bind] in *.
  rewrite Hp. cbn [bind]. rewrite int_mantissa_float by lia.
  eexists. split; [reflexivity|].
  apply Z.div_pos; [lia|apply pow2_pos; lia].
Qed.

(** The product [(k / n) * 100]: no exception, and the float it is. *)
Lemma percent_float_ok (k n : Z) :
  0 <= k <= n -> 0 < n ->
  (let* ratio := truediv k n in mul ratio (Int 100))
  = Ok (Float (SFmul prec emax
                 (SFdiv prec emax (exact_of_int k) (exact_of_int n))
                 hundred)).
Proof.
  intros Hk Hn.
  destruct (truediv_accurate k n Hk Hn) as (m & e & Hdiv & _).
  rewrite Hdiv. cbn [bind].
  unfold truediv in Hdiv.
  destruct (Z.eqb_spec n 0) as [|_]; [lia|].
  destruct (is_infinity _); [discriminate|].
  injection Hdiv as <-.
  unfold mul. rewrite float_of_int_100. reflexivity.
Qed.

Lemma float_near_mantissa (m e p q j : Z) :
  0 <= m -> -1200 <= e -> 0 < q ->
  Z.abs (m * 2 ^ (e + 1200) * q - p * 2 ^ 1200) * 2 ^ j <= 2 ^ 1200 * q ->
  float_near (mantissa_float m e) p q j.
Proof.
  intros Hm He Hq H. destruct m as [|m|m]; [| |lia].
  - cbn [mantissa_float float_near].
    pose proof (pow2_pos 1200 ltac:(lia)) as HW.
    replace (0 * 2 ^ (e + 1200) * q - p * 2 ^ 1200) with (- p * 2 ^ 1200) in H
      by ring.
    rewrite Z.abs_mul, (Z.abs_eq (2 ^ 1200)), Z.abs_opp in H by lia.
    apply (Z.mul_le_mono_pos_l _ _ (2 ^ 1200) HW).
    rewrite <- H. ring_simplify. lia.
  - cbn [mantissa_float float_near]. split; assumption.
Qed.

(** The overall score of a batch with [correct <= total] correct
    answers is within [2 ^ -41] of [100 * correct / total]. *)
Lemma percent_correct_near (correct total : Z) :
  0 <= correct <= total -> 0 < total ->
  exists f,
    percent_correct correct total = Float f
    /\ float_near f (100 * correct) total 41.
Proof.
  intros Hc Ht.
  destruct (percent_product_accurate correct total Hc Ht)
    as (m & e & Hp & Hm & He & Herr).
  rewrite percent_float_ok in Hp by assumption.
  unfold percent_correct.
  destruct (Z.ltb_spec 0 total) as [_|]; [|lia].
  injection Hp as ->.
  eexists. split; [reflexivity|].
  apply float_near_mantissa; [lia|lia|lia|exact Herr].
Qed.

(** Below 50 expected keywords the truncated product is the integer
    quotient [100 * k / n]. *)
Lemma percent_exact (k n : Z) :
  0 <= k <= n -> 0 < n < 50 -> percent k n = Ok (100 * k / n).
Proof.
  intros Hk Hn.
  assert (Hall : percent_exact_upto 49 = true) by (vm_compute; reflexivity).
  assert (Hgen : forall N, percent_exact_upto N = true ->
            forall n' k', (k' <= n')%nat -> (0 < n' <= N)%nat ->
              percent (Z.of_nat k') (Z.of_nat n')
              = Ok (100 * Z.of_nat k' / Z.of_nat n')).
  { induction N as [|N IH]; intros HN n' k' Hk' Hn'; [lia|].
    cbn [percent_exact_upto] in HN.
    apply andb_prop in HN as [Hrow Hrest].
    destruct (Nat.eq_dec n' (S N)) as [->|Hne].
    - rewrite forallb_forall in Hrow.
      specialize (Hrow k' ltac:(apply in_seq; lia)).
      destruct (percent (Z.of_nat k') (Z.of_nat (S N))) as [t|e];
        [|discriminate].
      apply Z.eqb_eq in Hrow. congruence.
    - apply IH; [exact Hrest|exact Hk'|lia]. }
  specialize (Hgen 49%nat Hall (Z.to_nat n) (Z.to_nat k) ltac:(lia) ltac:(lia)).
  rewrite !Z2Nat.id in Hgen by lia. exact Hgen.
Qed.
End Rounding.

(** ** Strings, the resolver and the handler *)

Section Strings.

Lemma lstrip_empty (s : string) : lstrip s = "" <-> all_space s = true.
Proof.
  induction s as [|c s IH]; simpl; [tauto|].
  destruct (isspace c); simpl; [exact IH|].
  split; discriminate.
Qed.

Lemma rstrip_empty (s : string) : rstrip s = "" <-> all_space s = true.
Proof.
  induction s as [|c s IH]; simpl; [tauto|].
  destruct (rstrip s) as [|c' r].
  - destruct IH as [IH _]. rewrite (IH eq_refl), andb_true_r.
    destruct (isspace c); split; congruence.
  - split; [discriminate|].
    intros [_ Hs]%andb_prop. apply IH in Hs. discriminate.
Qed.

Lemma all_space_rstrip (s : string) : all_space (rstrip s) = all_space s.
Proof.
  induction s as [|c s IH]; simpl; [reflexivity|].
  destruct (rstrip s) as [|c' r] eqn:Hr.
  - rewrite <- IH. simpl. destruct (isspace c) eqn:Hc; simpl; rewrite ?Hc; reflexivity.
  - rewrite <- IH. reflexivity.
Qed.

(** The empty-answer guard holds exactly for the answers made of
    whitespace only, the empty answer among them. *)
Lemma no_answer_all_space (answer : string) :
  no_answer answer = all_space answer.
Proof.
  unfold no_answer, strip.
  destruct (all_space answer) eqn:Hs.
  - rewrite <- all_space_rstrip in Hs. apply lstrip_empty in Hs.
    rewrite Hs. apply orb_true_r.
  - assert (Hne : lstrip (rstrip answer) <> "").
    { intros H%lstrip_empty. rewrite all_space_rstrip in H. congruence. }
    apply String.eqb_neq in Hne. rewrite Hne.
    destruct answer; [discriminate|reflexivity].
Qed.

End Strings.

Section AnalysisFacts.

Lemma matched_count_bounds (keywords : list string) (answer : string) :
  0 <= matched_count keywords answer <= Z.of_nat (length keywords).
Proof.
  unfold matched_count.
  pose proof (List.filter_length_le
                (fun keyword => contains keyword (lower answer)) keywords).
  lia.
Qed.

(** Every answered question gets the main return, with these fields. *)
Lemma analyze_answered (q a l c : string) :
  no_answer a = false ->
  let kws := expected_keywords (lower q) (lower l) (lower c) in
  exists s ok,
    scored kws a s ok
    /\ analyze_student_answer q a l c
       = Ok {| is_correct := ok;
               score := s;
               feedback := feedback_rule s (length_adequate a);
               question := q;
               answer := a;
               matched_keywords := Some (matched_count kws a);
               expected_keywords_count := Some (Z.of_nat (length kws)) |}.
Proof.
  intros Hno kws. unfold analyze_student_answer. rewrite Hno. cbv zeta.
  fold kws. fold (matched_count kws a).
  pose proof (matched_count_bounds kws a) as Hk.
  destruct kws as [|kw kws'] eqn:Hkws.
  - cbn [is_nil bind].
    eexists _, _. split; [split; reflexivity|]. reflexivity.
  - cbn [is_nil negb].
    destruct (percent_ok (matched_count (kw :: kws') a)
                (Z.of_nat (length (kw :: kws'))) Hk
                ltac:(cbn [length]; lia)) as (t & Hp & Ht).
    pose proof Hp as Hp'. unfold percent in Hp'.
    destruct (truediv _ _) as [ratio|e]; [|discriminate]. cbn [bind] in *.
    destruct (mul ratio (Int 100)) as [product|e]; [|discriminate].
    cbn [bind] in *. rewrite Hp'. cbn [bind].
    exists (penalize (length_adequate a) (clamp t 0 100)), 
           (60 <=? penalize (length_adequate a) (clamp t 0 100)).
    split.
    + exists t. repeat split; assumption.
    + unfold penalize, clamp, feedback_rule.
      destruct (length_adequate a); reflexivity.
Qed.

(** The empty-answer return. *)
Lemma analyze_no_answer (q a l c : string) :
  no_answer a = true ->
  analyze_student_answer q a l c = Ok (no_answer_result q a).
Proof. intros Hno. unfold analyze_student_answer. rewrite Hno. reflexivity. Qed.

(** [analyze_student_answer] raises no exception. *)
Lemma analyze_student_answer_ok (q a l c : string) :
  exists r, analyze_student_answer q a l c = Ok r.
Proof.
  destruct (no_answer a) eqn:Hno.
  - eexists. apply analyze_no_answer, Hno.
  - destruct (analyze_answered q a l c Hno) as (s & ok & _ & ->).
    eexists. reflexivity.
Qed.

End AnalysisFacts.

Section Resolver.

(** Split a false disjunction into its false disjuncts. *)
Ltac split_false H :=
  repeat match goal with
         | H' : (_ || _) = false |- _ =>
             let H1 := fresh H in
             let H2 := fresh H in
             apply orb_false_elim in H' as [H1 H2]
         end.

Ltac no_sub_pattern H :=
  cbv [sub_pattern_matches] in H; split_false H;
  repeat match goal with
         | H' : _ = false |- _ => rewrite H'; clear H'
         end;
  reflexivity.

(** A matched topic none of whose sub-patterns matches leaves
    [expected_keywords] empty. *)
Lemma expected_keywords_no_sub_pattern (ql ll cl : string) :
  topic_of ql ll cl <> Generic ->
  sub_pattern_matches (topic_of ql ll cl) ql = false ->
  expected_keywords ql ll cl = [].
Proof.
  unfold topic_of, expected_keywords.
  destruct (contains "python" ql || contains "python" ll).
  { intros _ H. no_sub_pattern H. }
  destruct (contains "machine learning" ql || contains "machine learning" ll
            || contains "machine learning" cl).
  { intros _ H. no_sub_pattern H. }
  destruct (contains "neural" ql || contains "deep learning" ll
            || contains "deep learning" cl).
  { intros _ H. no_sub_pattern H. }
  destruct (contains "data" ql || contains "analytics" ll
            || contains "analytics" cl).
  { intros _ H. no_sub_pattern H. }
  intros H. contradiction.
Qed.

(** With no topic matched, [expected_keywords] lists the key terms. *)
Lemma expected_keywords_generic (ql ll cl : string) :
  topic_of ql ll cl = Generic ->
  expected_keywords ql ll cl = elements (key_terms ll ql).
Proof.
  unfold topic_of, expected_keywords.
  destruct (contains "python" ql || contains "python" ll); [discriminate|].
  destruct (contains "machine learning" ql || contains "machine learning" ll
            || contains "machine learning" cl); [discriminate|].
  destruct (contains "neural" ql || contains "deep learning" ll
            || contains "deep learning" cl); [discriminate|].
  destruct (contains "data" ql || contains "analytics" ll
            || contains "analytics" cl); [discriminate|].
  reflexivity.
Qed.

(** One loop of the generic branch: the terms added are those passing
    the loop's test. *)
Lemma fold_add_elem (keep : string -> bool) (terms : list string) :
  forall (acc : gset string) (t : string),
    t ∈ fold_left (fun acc term => if keep term then {[ term ]} ∪ acc else acc)
                  terms acc
    <-> t ∈ acc \/ (In t terms /\ keep t = true).
Proof.
  induction terms as [|term terms IH]; intros acc t; cbn [fold_left In].
  - tauto.
  - rewrite IH. destruct (keep term) eqn:Hk.
    + rewrite elem_of_union, elem_of_singleton. split.
      * intros [[->|?]|[? ?]]; auto.
      * intros [?|[[->|?] ?]]; auto.
    + split.
      * intros [?|[? ?]]; auto.
      * intros [?|[[->|?] ?]]; auto. congruence.
Qed.

Lemma in_list_In (term : string) (ws : list string) :
  in_list term ws = true <-> In term ws.
Proof.
  unfold in_list. rewrite existsb_exists. split.
  - intros (w & Hw & ->%String.eqb_eq). exact Hw.
  - intros Hw. exists term. split; [exact Hw|apply String.eqb_refl].
Qed.

(** The key terms: lecture words longer than 3, and question words
    longer than 3 that are no stopwords. *)
Lemma key_terms_elem (ll ql t : string) :
  t ∈ key_terms ll ql
  <-> (In t (split ll) /\ (3 < len t)%nat)
      \/ (In t (split ql) /\ (3 < len t)%nat /\ ~ In t stopwords).
Proof.
  unfold key_terms. cbv zeta. rewrite !fold_add_elem.
  rewrite elem_of_empty, andb_true_iff, negb_true_iff, !Z.ltb_lt.
  rewrite <- not_true_iff_false, in_list_In.
  split.
  - intros [[[]|[? ?]]|[? [? ?]]]; [left|right]; repeat split; auto; lia.
  - intros [[? ?]|[? [? ?]]]; [left; right|right]; repeat split; auto; lia.
Qed.

End Resolver.

Section BatchFacts.

Lemma nth_error_combine_pair {A B} (xs : list A) (ys : list B) :
  forall i x y,
    nth_error xs i = Some x -> nth_error ys i = Some y ->
    nth_error (combine xs ys) i = Some (x, y).
Proof.
  revert ys. induction xs as [|x' xs IH]; intros [|y' ys] [|i] x y;
    cbn [nth_error combine]; try discriminate.
  - intros [= ->] [= ->]. reflexivity.
  - apply IH.
Qed.

(** The loop analyses every pair, in order, and cannot fail. *)
Lemma analyze_each_spec (lt cn : string) (pairs : list (string * string)) :
  exists rs,
    analyze_each lt cn pairs = Ok rs
    /\ length rs = length pairs
    /\ forall i q a,
         nth_error pairs i = Some (q, a) ->
         exists r, nth_error rs i = Some r
                   /\ analyze_student_answer q a lt cn = Ok r.
Proof.
  induction pairs as [|[q a] pairs (rs & Hrs & Hlen & Hnth)].
  - exists []. repeat split; try reflexivity.
    intros [|i] q a; discriminate.
  - destruct (analyze_student_answer_ok q a lt cn) as (r & Hr).
    exists (r :: rs). cbn [analyze_each]. rewrite Hr, Hrs. cbn [bind].
    repeat split; [cbn [length]; lia|].
    intros [|i] q' a'; cbn [nth_error].
    + intros [= <- <-]. exists r. split; [reflexivity|exact Hr].
    + apply Hnth.
Qed.

(** The overall score of a batch: no exception. *)
Lemma overall_score_ok (correct total : Z) :
  0 <= correct <= total ->
  (if 0 <? total then
     let* ratio := truediv correct total in mul ratio (Int 100)
   else Ok (Int 0))
  = Ok (percent_correct correct total).
Proof.
  intros Hc. unfold percent_correct.
  destruct (Z.ltb_spec 0 total) as [Ht|_]; [|reflexivity].
  exact (percent_float_ok correct total Hc Ht).
Qed.

(** An analysis repeats the question and the answer. *)
Lemma analyze_student_answer_echo (q a l c : string) (r : analysis) :
  analyze_student_answer q a l c = Ok r -> question r = q /\ answer r = a.
Proof.
  destruct (no_answer a) eqn:Hno.
  - rewrite (analyze_no_answer q a l c Hno). intros [= <-]. split; reflexivity.
  - destruct (analyze_answered q a l c Hno) as (s & ok & _ & ->).
    intros [= <-]. split; reflexivity.
Qed.

(** The results encode exactly when the questions and the answers of
    the pairs do. *)
Lemma analyze_each_encodable (lt cn : string) (pairs : list (string * string)) :
  forall rs,
    analyze_each lt cn pairs = Ok rs ->
    results_encodable rs
    = forallb (fun p => encodable (fst p) && encodable (snd p)) pairs.
Proof.
  induction pairs as [|[q a] pairs IH]; intros rs; cbn [analyze_each].
  - intros [= <-]. reflexivity.
  - destruct (analyze_student_answer q a lt cn) as [r|e] eqn:Hr;
      [|discriminate]. cbn [bind].
    destruct (analyze_each lt cn pairs) as [rs'|e]; [|discriminate].
    cbn [bind]. intros [= <-].
    destruct (analyze_student_answer_echo q a lt cn r Hr) as [Hq Ha].
    unfold results_encodable in *. cbn [forallb fst snd].
    rewrite Hq, Ha, (IH rs' eq_refl). reflexivity.
Qed.

Lemma forallb_combine (f : string -> bool) (xs ys : list string) :
  length xs = length ys ->
  forallb (fun p => f (fst p) && f (snd p)) (combine xs ys)
  = forallb f xs && forallb f ys.
Proof.
  revert ys. induction xs as [|x xs IH]; intros [|y ys] Hlen;
    try discriminate; [reflexivity|].
  cbn [combine forallb fst snd]. rewrite IH by (cbn in Hlen; lia).
  destruct (f x), (f y), (forallb f xs); reflexivity.
Qed.

(** A request with as many answers as questions is scored; the answer
    is 200 when the questions and the answers encode, and the 500 of
    the [except] branch when one does not. *)
Lemma analyze_answers_scored (encode_error : list analysis -> string)
    (request : AnswerRequest) :
  length (questions request) = length (answers request) ->
  exists rs,
    analyze_each (lecture_title request) (course_name request)
                 (combine (questions request) (answers request)) = Ok rs
    /\ analyze_answers encode_error request
       = if forallb encodable (questions request)
            && forallb encodable (answers request)
         then
           {| status_code := 200;
              status := "success";
              message := None;
              overall_score :=
                Some (percent_correct
                        (Z.of_nat (length (List.filter is_correct rs)))
                        (Z.of_nat (length rs)));
              results := rs |}
         else
           {| status_code := 500;
              status := "error";
              message :=
                Some ("Failed to analyze answers: " ++ encode_error rs);
              overall_score := None;
              results := [] |}.
Proof.
  intros Hlen. unfold analyze_answers, score_batch.
  rewrite Hlen, Nat.eqb_refl. cbn [negb].
  destruct (analyze_each_spec (lecture_title request) (course_name request)
              (combine (questions request) (answers request)))
    as (rs & Hrs & _ & _).
  exists rs. split; [exact Hrs|]. rewrite Hrs. cbn [bind].
  rewrite overall_score_ok.
  2:{ pose proof (List.filter_length_le is_correct rs). lia. }
  cbn [bind].
  rewrite (analyze_each_encodable _ _ _ rs Hrs), forallb_combine by exact Hlen.
  reflexivity.
Qed.

End BatchFacts.

(** ** The claims of the specification *)

Section Claims.

(** C1, as stated, fails: with 4 of the 6 expected keywords in an
    answer of adequate length the score is 66, the truncation of
    66.66..., and no rounding to nearest of 100 * 4 / 6 gives 66. *)
Lemma rounded_score_counterexample :
  let q := "What are the features of Python?" in
  let a := "python is easy and simple with many libraries and it is versatile too" in
  exists r,
    analyze_student_answer q a "Intro" "CS101" = Ok r
    /\ no_answer a = false
    /\ length_adequate a = true
    /\ matched_keywords r = Some 4
    /\ expected_keywords_count r = Some 6
    /\ score r = 66
    /\ forall s, nearest_percent 4 6 s -> score r <> clamp s 0 100.
Proof.
  eexists. split; [vm_compute; reflexivity|].
  repeat split; try reflexivity.
  cbn [score]. unfold nearest_percent, clamp. intros s Hs. lia.
Qed.

(** C1 (amended): for an answer that is not empty or whitespace-only
    and a non-empty expected keyword set, the score is
    clamp(int(matchRatio * 100), 0, 100), the product being evaluated
    in double precision and truncated toward zero, not rounded: it is
    the integer quotient 100 * matched / expected, or one less than it
    in some cases where the division is exact and there are 50
    keywords or more; 30 is subtracted, floored at 0, when the answer
    is not length adequate, and isCorrect holds exactly when the result
    is >= 60. *)
Theorem score_truncates_match_ratio (q a l c : string) :
  no_answer a = false ->
  expected_keywords (lower q) (lower l) (lower c) <> [] ->
  exists r t,
    let kws := expected_keywords (lower q) (lower l) (lower c) in
    let matched := matched_count kws a in
    let expected := Z.of_nat (length kws) in
    analyze_student_answer q a l c = Ok r
    /\ matched_keywords r = Some matched
    /\ expected_keywords_count r = Some expected
    /\ percent matched expected = Ok t
    /\ (expected < 2 ^ 41 ->
        100 * matched / expected - 1 <= t <= 100 * matched / expected)
    /\ (expected < 2 ^ 41 -> (100 * matched) mod expected <> 0 ->
        t = 100 * matched / expected)
    /\ (expected < 50 -> t = 100 * matched / expected)
    /\ score r = penalize (length_adequate a) (clamp t 0 100)
    /\ is_correct r = (60 <=? score r).
Proof.
  intros Hno Hkws.
  destruct (analyze_answered q a l c Hno) as (s & ok & Hsc & Hr).
  cbv zeta in Hr |- *.
  pose proof (matched_count_bounds
                (expected_keywords (lower q) (lower l) (lower c)) a) as Hk.
  destruct (expected_keywords (lower q) (lower l) (lower c)) as [|kw kws];
    [contradiction|].
  destruct Hsc as (t & Hp & Ht & -> & ->).
  eexists _, t. split; [exact Hr|]. cbn [matched_keywords
    expected_keywords_count score is_correct].
  assert (Hpos : 0 < Z.of_nat (length (kw :: kws))) by (cbn [length]; lia).
  assert (Htr : Z.of_nat (length (kw :: kws)) < 2 ^ 41 ->
            100 * matched_count (kw :: kws) a / Z.of_nat (length (kw :: kws)) - 1
            <= t <= 100 * matched_count (kw :: kws) a / Z.of_nat (length (kw :: kws))
            /\ ((100 * matched_count (kw :: kws) a) mod Z.of_nat (length (kw :: kws)) <> 0 ->
                t = 100 * matched_count (kw :: kws) a / Z.of_nat (length (kw :: kws)))).
  { intros Hn.
    destruct (percent_truncation _ _ Hk (conj Hpos Hn)) as (t' & Hp' & Hb & He).
    assert (t' = t) as -> by congruence. split; assumption. }
  repeat split; try assumption; try (apply Htr; assumption).
  intros Hn. rewrite percent_exact in Hp; [congruence|exact Hk|lia].
Qed.

(** The machine-learning scenario: six keywords of six, score 100. *)
Lemma score_truncates_match_ratio_witness :
  exists r t,
    analyze_student_answer
      "What is machine learning and how does it differ from traditional programming?"
      "Machine learning uses data and algorithms to learn patterns instead of explicit programming rules."
      "Intro to ML" "CS101" = Ok r
    /\ percent 6 6 = Ok t
    /\ score r = penalize true (clamp t 0 100)
    /\ is_correct r = (60 <=? score r).
Proof.
  destruct (score_truncates_match_ratio
    "What is machine learning and how does it differ from traditional programming?"
    "Machine learning uses data and algorithms to learn patterns instead of explicit programming rules."
    "Intro to ML" "CS101" eq_refl ltac:(vm_compute; discriminate))
    as (r & t & H1 & _ & _ & H4 & _ & _ & _ & H6 & H7).
  exists r, t. repeat split; assumption.
Defined.


(** The feedback is the too-brief message exactly when the length
    flag is off. *)
Lemma feedback_rule_too_brief (s : Z) (adequate : bool) :
  feedback_rule s adequate = msg_too_brief <-> adequate = false.
Proof.
  unfold feedback_rule. destruct adequate; cbn [negb]; [|tauto].
  split; [|discriminate].
  destruct (90 <=? s); [|destruct (70 <=? s); [|destruct (50 <=? s)]];
    intros H; apply (f_equal (fun m => String.eqb m msg_too_brief)) in H;
    vm_compute in H; discriminate.
Qed.

Lemma length_adequate_iff (a : string) :
  length_adequate a = true <-> (50 <= len a)%nat.
Proof. unfold length_adequate, min_length. rewrite Z.leb_le. lia. Qed.

(** C2, as stated, fails: an answer of 3 letters and 47 trailing
    spaces has trimmed length 3, yet the scorer takes it as length
    adequate (score 70, correct, no too-brief feedback). *)
Lemma trimmed_length_counterexample :
  len (strip padded_answer) = 3%nat
  /\ trimmed_length_adequate padded_answer = false
  /\ length_adequate padded_answer = true
  /\ exists r,
       analyze_student_answer "Why Python?" padded_answer "" "" = Ok r
       /\ score r = 70 /\ is_correct r = true /\ feedback r = msg_good.
Proof.
  repeat split; try reflexivity.
  eexists. split; [vm_compute; reflexivity|]. repeat split; reflexivity.
Qed.

(** C2 (amended): the length-adequacy flag is computed from the
    answer as given, not trimmed: it holds exactly when the character
    length of the answer is >= 50, and an answered question gets the
    too-brief feedback exactly when that length is below 50. *)
Theorem length_adequate_untrimmed (q a l c : string) :
  no_answer a = false ->
  (length_adequate a = true <-> (50 <= len a)%nat)
  /\ exists r,
       analyze_student_answer q a l c = Ok r
       /\ (feedback r = msg_too_brief <-> (len a < 50)%nat).
Proof.
  intros Hno. split; [apply length_adequate_iff|].
  destruct (analyze_answered q a l c Hno) as (s & ok & _ & Hr).
  eexists. split; [exact Hr|]. cbn [feedback].
  rewrite feedback_rule_too_brief, <- not_true_iff_false, length_adequate_iff.
  lia.
Qed.

(** The padded answer, on a question of the python branch. *)
Lemma length_adequate_untrimmed_witness :
  (length_adequate padded_answer = true <-> (50 <= len padded_answer)%nat)
  /\ exists r,
       analyze_student_answer "Why Python?" padded_answer "" "" = Ok r
       /\ (feedback r = msg_too_brief <-> (len padded_answer < 50)%nat).
Proof.
  apply (length_adequate_untrimmed "Why Python?" padded_answer "" "").
  reflexivity.
Defined.

(** C3, as stated, fails: the dict returned for an empty answer has
    no matched keyword count, where the claim has the count 0. *)
Lemma no_answer_count_counterexample :
  exists r,
    analyze_student_answer "What is Python?" "   " "Python basics" "CS" = Ok r
    /\ all_space "   " = true
    /\ matched_keywords r <> Some 0
    /\ matched_keywords r = None.
Proof.
  eexists. split; [vm_compute; reflexivity|].
  repeat split; try reflexivity. discriminate.
Qed.

(** C3 (amended): whatever the question, lecture and course, an empty
    or whitespace-only answer returns score 0, isCorrect false, the
    "No answer provided" feedback and the echoed question and answer,
    with no keyword resolution or scoring: the result carries neither
    a matched keyword count nor an expected keyword count. *)
Theorem no_answer_short_circuit (q a l c : string) :
  all_space a = true ->
  exists r,
    analyze_student_answer q a l c = Ok r
    /\ r = no_answer_result q a
    /\ score r = 0 /\ is_correct r = false
    /\ feedback r = "No answer provided. Please try to answer the question."%string
    /\ question r = q /\ answer r = a
    /\ matched_keywords r = None /\ expected_keywords_count r = None.
Proof.
  intros Hs. rewrite <- no_answer_all_space in Hs.
  exists (no_answer_result q a).
  split; [apply analyze_no_answer, Hs|]. repeat split.
Qed.

(** An answer of three spaces. *)
Lemma no_answer_short_circuit_witness :
  exists r,
    analyze_student_answer "What is Python?" "   " "Python basics" "CS" = Ok r
    /\ score r = 0 /\ is_correct r = false /\ matched_keywords r = None.
Proof.
  destruct (no_answer_short_circuit "What is Python?" "   " "Python basics" "CS"
              eq_refl) as (r & Hr & _ & Hs & Hc & _ & _ & _ & Hm & _).
  exists r. repeat split; assumption.
Defined.

(** C4, as stated, fails: with the python branch matched and no
    sub-pattern matching, an empty answer scores 0, not 30, and has no
    expected keyword count. *)
Lemma topic_without_sub_pattern_counterexample :
  let q := "Why Python?" in
  topic_of (lower q) (lower "") (lower "") = Python
  /\ sub_pattern_matches Python (lower q) = false
  /\ length_adequate "" = false
  /\ exists r,
       analyze_student_answer q "" "" "" = Ok r
       /\ score r = 0 /\ score r <> 30
       /\ expected_keywords_count r = None.
Proof.
  repeat split; try reflexivity.
  eexists. split; [vm_compute; reflexivity|].
  repeat split; try reflexivity. discriminate.
Qed.

(** C4 (amended): for every input whose answer is not empty or
    whitespace-only, if one of the four topic branches matches and
    none of its sub-patterns matches the question, the resolved keyword
    set is empty (the generic word extraction is not used) and the
    score is 70 with isCorrect true when the answer is length adequate,
    else 30 with isCorrect false. *)
Theorem topic_without_sub_pattern (q a l c : string) :
  no_answer a = false ->
  topic_of (lower q) (lower l) (lower c) <> Generic ->
  sub_pattern_matches (topic_of (lower q) (lower l) (lower c)) (lower q) = false ->
  expected_keywords (lower q) (lower l) (lower c) = []
  /\ exists r,
       analyze_student_answer q a l c = Ok r
       /\ expected_keywords_count r = Some 0
       /\ matched_keywords r = Some 0
       /\ score r = (if length_adequate a then 70 else 30)
       /\ is_correct r = length_adequate a.
Proof.
  intros Hno Htopic Hsub.
  pose proof (expected_keywords_no_sub_pattern _ _ _ Htopic Hsub) as Hkws.
  split; [exact Hkws|].
  destruct (analyze_answered q a l c Hno) as (s & ok & Hsc & Hr).
  cbv zeta in Hr. rewrite Hkws in *. destruct Hsc as [-> ->].
  eexists. split; [exact Hr|]. repeat split.
Qed.

(** The python branch with no sub-pattern, although the generic extraction
    would find key terms. *)
Lemma topic_without_sub_pattern_witness :
  expected_keywords (lower "Why Python?") (lower "Programming") (lower "CS") = []
  /\ key_terms (lower "Programming") (lower "Why Python?") <> ∅
  /\ exists r,
       analyze_student_answer "Why Python?" long_answer "Programming" "CS" = Ok r
       /\ score r = 70 /\ is_correct r = true.
Proof.
  assert (Ht : topic_of (lower "Why Python?") (lower "Programming") (lower "CS")
               <> Generic) by (intros H; vm_compute in H; discriminate H).
  destruct (topic_without_sub_pattern "Why Python?" long_answer "Programming" "CS"
              eq_refl Ht eq_refl)
    as (Hk & r & Hr & _ & _ & Hs & Hc).
  split; [exact Hk|]. split.
  - assert (Hin : "programming" ∈ key_terms (lower "Programming") (lower "Why Python?")).
    { apply key_terms_elem. left. split; [left; reflexivity|cbn; lia]. }
    intros H. rewrite H in Hin. exact (not_elem_of_empty _ Hin).
  - exists r. repeat split; assumption.
Defined.


(** C5, as stated, fails on the overall score: with one correct answer
    out of three the handler returns (1 / 3) * 100 evaluated in double
    precision, 33.33333333333333; that is neither the rational 100 / 3
    nor the double 100 * 1 / 3 = 33.333333333333336. *)
Lemma overall_score_counterexample :
  let response := analyze_answers (fun _ => EmptyString) one_of_three in
  let x := S754_finite false 4691249611844266 (-47) in
  status_code response = 200
  /\ length (results response) = 3%nat
  /\ length (List.filter is_correct (results response)) = 1%nat
  /\ overall_score response = Some (Float x)
  /\ ~ float_is x (100 * 1) 3
  /\ (let* product := mul (Int 100) (Int 1) in
      match product with
      | Int p => truediv p 3
      | Float _ => Raise ValueError
      end)
     = Ok (Float (S754_finite false 4691249611844267 (-47)))
  /\ Float x <> Float (S754_finite false 4691249611844267 (-47)).
Proof.
  cbv zeta. repeat split; try (vm_compute; reflexivity).
  - unfold float_is. vm_compute. discriminate.
  - discriminate.
Qed.

(** C5 (amended): for question and answer lists of equal length, all
    of whose texts can be encoded as UTF-8 (none holds a lone
    surrogate), the handler answers 200 with exactly one analysis per
    pair (questions[i], answers[i]), in input order; the overall score
    is (correct / total) * 100 evaluated in double precision, quotient
    first, where correct counts the results with isCorrect true and
    total > 0, a float within 2 ^ -41 of 100 * correct / total; it is
    the integer 0 when total = 0. *)
Theorem batch_results_and_overall_score
    (encode_error : list analysis -> string) (request : AnswerRequest) :
  length (questions request) = length (answers request) ->
  forallb encodable (questions request) = true ->
  forallb encodable (answers request) = true ->
  let response := analyze_answers encode_error request in
  let correct := Z.of_nat (length (List.filter is_correct (results response))) in
  let total := Z.of_nat (length (results response)) in
  status_code response = 200
  /\ length (results response) = length (questions request)
  /\ (forall i q a,
        nth_error (questions request) i = Some q ->
        nth_error (answers request) i = Some a ->
        exists r,
          nth_error (results response) i = Some r
          /\ analyze_student_answer q a (lecture_title request)
               (course_name request) = Ok r)
  /\ overall_score response = Some (percent_correct correct total)
  /\ (0 < total ->
      let f := SFmul prec emax
                 (SFdiv prec emax (exact_of_int correct) (exact_of_int total))
                 hundred in
      overall_score response = Some (Float f)
      /\ float_near f (100 * correct) total 41)
  /\ (total = 0 -> overall_score response = Some (Int 0)).
Proof.
  intros Hlen Hencq Henca.
  destruct (analyze_each_spec (lecture_title request) (course_name request)
              (combine (questions request) (answers request)))
    as (rs & Hrs & Hlenrs & Hnth).
  destruct (analyze_answers_scored encode_error request Hlen)
    as (rs' & Hrs' & Hresp).
  assert (rs' = rs) as -> by congruence.
  rewrite Hencq, Henca in Hresp. cbn [andb] in Hresp.
  cbv zeta. rewrite Hresp. cbn [status_code results overall_score].
  split; [reflexivity|]. split.
  { rewrite Hlenrs, length_combine. lia. }
  split.
  { intros i q a Hq Ha. apply Hnth, nth_error_combine_pair; assumption. }
  split; [reflexivity|]. split.
  - intros Ht.
    pose proof (List.filter_length_le is_correct rs) as Hle.
    destruct (percent_correct_near
                (Z.of_nat (length (List.filter is_correct rs)))
                (Z.of_nat (length rs)) ltac:(lia) Ht) as (f & Hf & Hnear).
    rewrite Hf. unfold percent_correct in Hf.
    destruct (Z.ltb_spec 0 (Z.of_nat (length rs))); [|lia].
    injection Hf as <-. split; [reflexivity|exact Hnear].
  - intros Ht. unfold percent_correct. rewrite Ht. reflexivity.
Qed.

(** The batch of three answers. *)
Lemma batch_results_and_overall_score_witness :
  status_code (analyze_answers (fun _ => EmptyString) one_of_three) = 200
  /\ length (results (analyze_answers (fun _ => EmptyString) one_of_three))
     = 3%nat.
Proof.
  destruct (batch_results_and_overall_score (fun _ => EmptyString)
              one_of_three eq_refl eq_refl eq_refl)
    as (Hs & Hl & _).
  split; [exact Hs|exact Hl].
Defined.

(** C6: a request whose questions and answers lists differ in length
    is rejected with a validation error, status code 400 and empty
    results: no pair is analysed, whatever the lists hold. *)
Theorem mismatched_lengths_rejected
    (encode_error : list analysis -> string) (request : AnswerRequest) :
  length (questions request) <> length (answers request) ->
  analyze_answers encode_error request = mismatch_response
  /\ status_code (analyze_answers encode_error request) = 400
  /\ results (analyze_answers encode_error request) = [].
Proof.
  intros Hlen. unfold analyze_answers.
  apply Nat.eqb_neq in Hlen. rewrite Hlen. cbn [negb].
  repeat split.
Qed.

(** Two questions and one answer. *)
Lemma mismatched_lengths_rejected_witness :
  analyze_answers (fun _ => EmptyString) mismatched = mismatch_response
  /\ status_code (analyze_answers (fun _ => EmptyString) mismatched) = 400
  /\ results (analyze_answers (fun _ => EmptyString) mismatched) = [].
Proof.
  apply (mismatched_lengths_rejected (fun _ => EmptyString) mismatched).
  cbn. lia.
Defined.

(** C7, as stated, fails: in the generic branch the stopword "what" of
    the lecture title is kept as a key term, since the stopword filter
    is applied to the words of the question only. *)
Lemma lecture_stopword_counterexample :
  let q := "Explain stability" in
  let l := "What About Sorting" in
  topic_of (lower q) (lower l) (lower "CS") = Generic
  /\ In "what" (expected_keywords (lower q) (lower l) (lower "CS"))
  /\ In "what" stopwords
  /\ ("what" ∉ uniform_key_terms (lower l) (lower q))
  /\ exists r,
       analyze_student_answer q long_answer l "CS" = Ok r
       /\ expected_keywords_count r = Some 4
       /\ size (uniform_key_terms (lower l) (lower q)) = 3%nat.
Proof.
  cbv zeta. split; [reflexivity|]. split.
  { rewrite expected_keywords_generic by reflexivity.
    rewrite <- list_elem_of_In, elem_of_elements, key_terms_elem.
    left. split; [left; reflexivity|cbn; lia]. }
  split; [left; reflexivity|]. split.
  { unfold uniform_key_terms. rewrite elem_of_list_to_set, list_elem_of_In.
    rewrite filter_In. intros [_ H]. vm_compute in H. discriminate. }
  eexists. split; [vm_compute; reflexivity|].
  split; [reflexivity|]. vm_compute. reflexivity.
Qed.

(** C7 (amended): in the generic branch (no topic matched) the keyword
    set is the deduplicated union of the whitespace tokens of length
    > 3 of the lowercased lecture title, stopwords included, and of the
    whitespace tokens of length > 3 of the lowercased question that are
    not in the stopword list: the stopword filter applies to the
    question only. *)
Theorem generic_keywords (q l c : string) :
  topic_of (lower q) (lower l) (lower c) = Generic ->
  let kws := expected_keywords (lower q) (lower l) (lower c) in
  NoDup kws
  /\ forall t,
       In t kws
       <-> (In t (split (lower l)) /\ (3 < len t)%nat)
           \/ (In t (split (lower q)) /\ (3 < len t)%nat
               /\ ~ In t stopwords).
Proof.
  intros Htopic. cbv zeta.
  rewrite (expected_keywords_generic _ _ _ Htopic). split.
  - apply NoDup_elements.
  - intros t. rewrite <- list_elem_of_In, elem_of_elements.
    apply key_terms_elem.
Qed.

(** A lecture title and a question of no topic. *)
Lemma generic_keywords_witness :
  NoDup (expected_keywords (lower "Explain stability")
           (lower "What About Sorting") (lower "CS")).
Proof.
  exact (proj1 (generic_keywords "Explain stability" "What About Sorting" "CS"
                  eq_refl)).
Defined.

(** C8: for every answer that is not empty or whitespace-only the
    feedback is a function of (score, lengthAdequate), the first rule
    that applies: not lengthAdequate gives the too-brief message
    whatever the score; else score >= 90 the excellent message, score
    >= 70 the good one, score >= 50 the partial one, and below that the
    needs-improvement message. *)
Theorem feedback_by_first_rule (q a l c : string) :
  no_answer a = false ->
  exists r,
    analyze_student_answer q a l c = Ok r
    /\ feedback r = feedback_rule (score r) (length_adequate a)
    /\ feedback r
       = (if negb (length_adequate a) then
            "Your answer is too brief. Please provide a more detailed explanation."
          else if 90 <=? score r then
            "Excellent answer! You've covered all the key concepts thoroughly."
          else if 70 <=? score r then
            "Good answer. You've addressed most of the important points."
          else if 50 <=? score r then
            "Partial answer. You've mentioned some relevant concepts, but missed others."
          else
            "Your answer needs improvement. Try to include more specific details about key concepts.").
Proof.
  intros Hno.
  destruct (analyze_answered q a l c Hno) as (s & ok & _ & Hr).
  eexists. split; [exact Hr|]. split; reflexivity.
Qed.

(** An answer of adequate length with no expected keyword: the good tier. *)
Lemma feedback_by_first_rule_witness :
  exists r,
    analyze_student_answer "Why Python?" long_answer "Programming" "CS" = Ok r
    /\ feedback r = feedback_rule (score r) (length_adequate long_answer).
Proof.
  destruct (feedback_by_first_rule "Why Python?" long_answer "Programming" "CS"
              eq_refl) as (r & Hr & Hf & _).
  exists r. split; assumption.
Defined.

(** C9: the analysis is total: for every question, answer, lecture
    title and course name, empty strings and inputs with no expected
    keyword included, analyze_student_answer raises no exception and
    returns a result; the empty-answer return is its only special path,
    every other input gets the main return with both keyword counts. *)
Theorem analyze_student_answer_total (q a l c : string) :
  exists r,
    analyze_student_answer q a l c = Ok r
    /\ question r = q /\ answer r = a
    /\ if no_answer a then r = no_answer_result q a
       else exists matched expected,
              matched_keywords r = Some matched
              /\ expected_keywords_count r = Some expected
              /\ 0 <= matched <= expected.
Proof.
  destruct (no_answer a) eqn:Hno.
  - exists (no_answer_result q a).
    split; [apply analyze_no_answer, Hno|]. repeat split.
  - destruct (analyze_answered q a l c Hno) as (s & ok & _ & Hr).
    eexists. split; [exact Hr|]. cbn [question answer matched_keywords
      expected_keywords_count]. repeat split.
    eexists _, _. repeat split; apply matched_count_bounds.
Qed.

(** C10: on every input the result has 0 <= score <= 100 and
    isCorrect holds exactly when score >= 60, on the empty-answer
    return, with no expected keyword and with keyword matching. *)
Theorem score_range_and_verdict (q a l c : string) :
  exists r,
    analyze_student_answer q a l c = Ok r
    /\ 0 <= score r <= 100
    /\ (is_correct r = true <-> 60 <= score r).
Proof.
  destruct (no_answer a) eqn:Hno.
  - exists (no_answer_result q a).
    split; [apply analyze_no_answer, Hno|]. cbn. split; [lia|].
    split; [discriminate|lia].
  - destruct (analyze_answered q a l c Hno) as (s & ok & Hsc & Hr).
    eexists. split; [exact Hr|]. cbn [score is_correct].
    cbv zeta in Hsc.
    destruct (expected_keywords (lower q) (lower l) (lower c)) as [|kw kws].
    + destruct Hsc as [-> ->].
      destruct (length_adequate a); (split; [lia|]); split;
        try discriminate; try lia; reflexivity.
    + destruct Hsc as (t & _ & _ & -> & ->).
      rewrite Z.leb_le. unfold penalize, clamp.
      destruct (length_adequate a); split; try lia; tauto.
Qed.

(** 29 keywords of 50: the product is 57.99999999999999, truncated to
    57, where the integer quotient is 58. *)
Example percent_29_of_50 : percent 29 50 = Ok 57 /\ 100 * 29 / 50 = 58.
Proof. split; reflexivity. Qed.

End Claims.

(** * Further properties of the code *)

(** ** Scores at the extremes *)

Section Extremes.

(** What [SFdiv] rounds for [n / n]: the mantissa [2 ^ 53], exactly. *)
Lemma SFdiv_core_binary_same (n : positive) :
  SFdiv_core_binary prec emax (Z.pos n) 0 (Z.pos n) 0
  = (2 ^ 53, -53, loc_Exact).
Proof.
  unfold SFdiv_core_binary.
  replace (Zdigits2 (Z.pos n) + 0 - (Zdigits2 (Z.pos n) + 0)) with 0 by lia.
  change (Z.min (fexp prec emax 0) (0 - 0)) with (-53).
  change (0 - 0 - -53) with 53. cbv beta iota zeta.
  rewrite Z.shiftl_mul_pow2 by lia.
  pose proof (Z.div_mul (2 ^ 53) (Z.pos n) ltac:(lia)) as Hq.
  pose proof (Z.mod_mul (2 ^ 53) (Z.pos n) ltac:(lia)) as Hr.
  rewrite (Z.mul_comm (2 ^ 53)) in Hq, Hr.
  unfold Z.div, Z.modulo in Hq, Hr.
  destruct (Z.div_eucl (Z.pos n * 2 ^ 53) (Z.pos n)) as [q r].
  cbn [fst snd] in Hq, Hr. subst q r.
  unfold new_location. destruct (Z.even (Z.pos n)); reflexivity.
Qed.

(** [n / n] is exactly 1.0, for every positive [n]. *)
Lemma SFdiv_same (n : positive) :
  SFdiv prec emax (exact_of_int (Z.pos n)) (exact_of_int (Z.pos n))
  = S754_finite false 4503599627370496 (-52).
Proof.
  cbn [exact_of_int SFdiv xorb]. rewrite SFdiv_core_binary_same. reflexivity.
Qed.

(** All of [n > 0] keywords: the percentage is exactly 100. *)
Lemma percent_all (n : Z) : 0 < n -> percent n n = Ok 100.
Proof.
  intros Hn. destruct n as [|p|p]; try lia.
  unfold percent, truediv. cbn [Z.eqb]. rewrite SFdiv_same. reflexivity.
Qed.

(** None of [n > 0] keywords: the percentage is 0. *)
Lemma percent_none (n : Z) : 0 < n -> percent 0 n = Ok 0.
Proof. intros Hn. destruct n as [|p|p]; try lia. reflexivity. Qed.

End Extremes.

Section ScoreFacts.

Lemma filter_all_length {A} (f : A -> bool) (l : list A) :
  (forall x, In x l -> f x = true) -> length (List.filter f l) = length l.
Proof.
  induction l as [|x l IH]; intros H; cbn [List.filter length]; [reflexivity|].
  rewrite (H x (or_introl eq_refl)). cbn [length]. rewrite IH; [reflexivity|].
  intros y Hy. apply H. right. exact Hy.
Qed.

Lemma filter_none_length {A} (f : A -> bool) (l : list A) :
  (forall x, In x l -> f x = false) -> length (List.filter f l) = 0%nat.
Proof.
  induction l as [|x l IH]; intros H; cbn [List.filter length]; [reflexivity|].
  rewrite (H x (or_introl eq_refl)). apply IH.
  intros y Hy. apply H. right. exact Hy.
Qed.

(** The score of an answered question with expected keywords. *)
Lemma analyze_with_keywords (q a l c : string) :
  no_answer a = false ->
  let kws := expected_keywords (lower q) (lower l) (lower c) in
  kws <> [] ->
  exists r t,
    analyze_student_answer q a l c = Ok r
    /\ percent (matched_count kws a) (Z.of_nat (length kws)) = Ok t
    /\ score r = penalize (length_adequate a) (clamp t 0 100)
    /\ is_correct r = (60 <=? score r)
    /\ feedback r = feedback_rule (score r) (length_adequate a)
    /\ matched_keywords r = Some (matched_count kws a)
    /\ expected_keywords_count r = Some (Z.of_nat (length kws)).
Proof.
  intros Hno kws Hkws.
  destruct (analyze_answered q a l c Hno) as (s & ok & Hsc & Hr).
  fold kws in Hsc, Hr. destruct kws as [|kw kws']; [contradiction|].
  destruct Hsc as (t & Hp & _ & -> & ->).
  eexists _, t. split; [exact Hr|]. repeat split; assumption.
Qed.

(** X1: an answer of adequate length that contains every expected keyword
    scores 100, is correct and gets the excellent feedback. *)
Theorem full_match_scores_100 (q a l c : string) :
  no_answer a = false ->
  length_adequate a = true ->
  expected_keywords (lower q) (lower l) (lower c) <> [] ->
  (forall kw, In kw (expected_keywords (lower q) (lower l) (lower c)) ->
              contains kw (lower a) = true) ->
  exists r,
    analyze_student_answer q a l c = Ok r
    /\ score r = 100 /\ is_correct r = true /\ feedback r = msg_excellent.
Proof.
  intros Hno Hlen Hkws Hall.
  destruct (analyze_with_keywords q a l c Hno Hkws)
    as (r & t & Hr & Hp & Hs & Hc & Hf & _).
  cbv zeta in Hp. unfold matched_count in Hp.
  rewrite filter_all_length in Hp by exact Hall.
  rewrite percent_all in Hp.
  2:{ destruct (expected_keywords (lower q) (lower l) (lower c));
      [contradiction|cbn [length]; lia]. }
  injection Hp as <-. rewrite Hlen in Hs, Hf.
  exists r. split; [exact Hr|].
  assert (Hs' : score r = 100) by exact Hs.
  rewrite Hs' in Hc, Hf. repeat split; assumption.
Qed.

Lemma full_match_scores_100_witness :
  exists r,
    analyze_student_answer
      "What is machine learning and how does it differ from traditional programming?"
      "Machine learning uses data and algorithms to learn patterns instead of explicit programming rules."
      "Intro to ML" "CS101" = Ok r
    /\ score r = 100 /\ is_correct r = true /\ feedback r = msg_excellent.
Proof.
  apply full_match_scores_100; [reflexivity|reflexivity|vm_compute; discriminate|].
  intros kw Hkw. vm_compute in Hkw.
  repeat (destruct Hkw as [<-|Hkw]; [vm_compute; reflexivity|]).
  contradiction.
Defined.

(** X2: an answer that contains none of the expected keywords, of which
    there is at least one, scores 0 and is not correct, whatever its
    length. *)
Theorem no_match_scores_0 (q a l c : string) :
  no_answer a = false ->
  expected_keywords (lower q) (lower l) (lower c) <> [] ->
  (forall kw, In kw (expected_keywords (lower q) (lower l) (lower c)) ->
              contains kw (lower a) = false) ->
  exists r,
    analyze_student_answer q a l c = Ok r
    /\ score r = 0 /\ is_correct r = false
    /\ matched_keywords r = Some 0
    /\ feedback r = (if length_adequate a then msg_needs_improvement
                     else msg_too_brief).
Proof.
  intros Hno Hkws Hnone.
  destruct (analyze_with_keywords q a l c Hno Hkws)
    as (r & t & Hr & Hp & Hs & Hc & Hf & Hm & _).
  cbv zeta in Hp, Hm. unfold matched_count in Hp, Hm.
  rewrite filter_none_length in Hp, Hm by exact Hnone.
  change (Z.of_nat 0) with 0 in Hp, Hm.
  rewrite percent_none in Hp.
  2:{ destruct (expected_keywords (lower q) (lower l) (lower c));
      [contradiction|cbn [length]; lia]. }
  injection Hp as <-.
  assert (Hs' : score r = 0) by (rewrite Hs; destruct (length_adequate a); reflexivity).
  rewrite Hs' in Hc, Hf. exists r. split; [exact Hr|].
  repeat split; try assumption.
  rewrite Hf. destruct (length_adequate a); reflexivity.
Qed.

Lemma no_match_scores_0_witness :
  exists r,
    analyze_student_answer
      "What is machine learning and how does it differ from traditional programming?"
      "idk" "Intro to ML" "CS101" = Ok r
    /\ score r = 0 /\ is_correct r = false.
Proof.
  destruct (no_match_scores_0
    "What is machine learning and how does it differ from traditional programming?"
    "idk" "Intro to ML" "CS101" eq_refl) as (r & Hr & Hs & Hc & _).
  - vm_compute; discriminate.
  - intros kw Hkw. vm_compute in Hkw.
    repeat (destruct Hkw as [<-|Hkw]; [vm_compute; reflexivity|]).
    contradiction.
  - exists r. repeat split; assumption.
Defined.

(** X3: with fewer than 50 expected keywords, an answer of adequate length
    is correct exactly when it matches at least 60% of them, and a
    shorter answer exactly when it matches at least 90% of them. *)
Theorem verdict_thresholds (q a l c : string) :
  no_answer a = false ->
  let kws := expected_keywords (lower q) (lower l) (lower c) in
  (0 < length kws < 50)%nat ->
  exists r,
    analyze_student_answer q a l c = Ok r
    /\ (is_correct r = true
        <-> if length_adequate a
            then 3 * Z.of_nat (length kws) <= 5 * matched_count kws a
            else 9 * Z.of_nat (length kws) <= 10 * matched_count kws a).
Proof.
  intros Hno kws Hn.
  assert (Hkws : kws <> []) by (destruct kws; [cbn in Hn; lia|discriminate]).
  destruct (analyze_with_keywords q a l c Hno Hkws)
    as (r & t & Hr & Hp & Hs & Hc & _).
  fold kws in Hp. pose proof (matched_count_bounds kws a) as Hk.
  rewrite percent_exact in Hp by lia. injection Hp as <-.
  exists r. split; [exact Hr|]. rewrite Hc, Z.leb_le, Hs.
  set (n := Z.of_nat (length kws)) in *. set (k := matched_count kws a) in *.
  assert (Hn0 : 0 < n) by (subst n; lia).
  assert (Hdiv : forall x, x <= 100 * k / n <-> x * n <= 100 * k).
  { intros x. split; intros H.
    - pose proof (Z.mul_div_le (100 * k) n Hn0). nia.
    - apply Z.div_le_lower_bound; lia. }
  assert (Hle : 100 * k / n <= 100).
  { apply Z.div_le_upper_bound; lia. }
  assert (Hge : 0 <= 100 * k / n) by (apply Z.div_pos; lia).
  unfold penalize, clamp. destruct (length_adequate a).
  - rewrite Z.min_r, Z.max_r by lia. rewrite Hdiv. lia.
  - rewrite Z.min_r, (Z.max_r 0 (100 * k / n)) by lia.
    split; intros H.
    + assert (H90 : 90 <= 100 * k / n) by lia. apply Hdiv in H90. lia.
    + assert (H90 : 90 <= 100 * k / n) by (apply Hdiv; lia). lia.
Qed.

Lemma verdict_thresholds_witness :
  exists r,
    analyze_student_answer "What are the features of Python?" long_answer
      "Intro" "CS101" = Ok r
    /\ (is_correct r = true <-> 3 * 6 <= 5 * 4).
Proof.
  exact (verdict_thresholds "What are the features of Python?" long_answer
           "Intro" "CS101" eq_refl ltac:(vm_compute; lia)).
Defined.

End ScoreFacts.

Section CaseFacts.

Lemma isspace_lower_char (ch : ascii) : isspace (lower_char ch) = isspace ch.
Proof. destruct ch as [[] [] [] [] [] [] [] []]; reflexivity. Qed.

Lemma all_space_lower (s : string) : all_space (lower s) = all_space s.
Proof.
  induction s as [|ch s IH]; cbn [lower all_space]; [reflexivity|].
  rewrite isspace_lower_char, IH. reflexivity.
Qed.

Lemma lower_char_idempotent (ch : ascii) :
  lower_char (lower_char ch) = lower_char ch.
Proof. destruct ch as [[] [] [] [] [] [] [] []]; reflexivity. Qed.

(** [s.lower().lower() == s.lower()] *)
Lemma lower_idempotent (s : string) : lower (lower s) = lower s.
Proof.
  induction s as [|ch s IH]; cbn [lower]; [reflexivity|].
  rewrite lower_char_idempotent, IH. reflexivity.
Qed.

Lemma no_answer_lower (a a' : string) :
  lower a = lower a' -> no_answer a = no_answer a'.
Proof.
  intros H. rewrite !no_answer_all_space.
  rewrite <- (all_space_lower a), <- (all_space_lower a'), H. reflexivity.
Qed.

Lemma length_adequate_len (a a' : string) :
  len a = len a' -> length_adequate a = length_adequate a'.
Proof. intros H. unfold length_adequate. rewrite H. reflexivity. Qed.

Lemma matched_count_lower (kws : list string) (a a' : string) :
  lower a = lower a' -> matched_count kws a = matched_count kws a'.
Proof. intros H. unfold matched_count. rewrite H. reflexivity. Qed.

(** The score and the verdict depend on the answer through its
    lowercase form and its length only. *)
Lemma scored_lower (kws : list string) (a a' : string) (s s' : Z)
    (ok ok' : bool) :
  lower a = lower a' -> len a = len a' ->
  scored kws a s ok -> scored kws a' s' ok' -> s = s' /\ ok = ok'.
Proof.
  intros H Hlen Hs Hs'. unfold scored in *.
  rewrite (matched_count_lower kws a a' H) in Hs.
  rewrite (length_adequate_len a a' Hlen) in Hs.
  destruct kws as [|kw kws].
  - destruct Hs as [-> ->], Hs' as [-> ->]. split; reflexivity.
  - destruct Hs as (t & Hp & _ & -> & ->), Hs' as (t' & Hp' & _ & -> & ->).
    assert (t = t') as -> by congruence. split; reflexivity.
Qed.

(** X4: grading does not look at letter case: two submissions whose
    questions, answers, lecture titles and course names are equal after
    [lower()], with answers of the same length, get the same score,
    verdict, feedback and keyword counts. (The length is compared
    before lower-casing, which can change it outside ASCII.) *)
Theorem analysis_case_insensitive (q a l c q' a' l' c' : string) :
  lower q = lower q' -> lower a = lower a' -> len a = len a' ->
  lower l = lower l' -> lower c = lower c' ->
  exists r r',
    analyze_student_answer q a l c = Ok r
    /\ analyze_student_answer q' a' l' c' = Ok r'
    /\ score r = score r' /\ is_correct r = is_correct r'
    /\ feedback r = feedback r'
    /\ matched_keywords r = matched_keywords r'
    /\ expected_keywords_count r = expected_keywords_count r'.
Proof.
  intros Hq Ha Hlen Hl Hc.
  pose proof (no_answer_lower a a' Ha) as Hno.
  destruct (no_answer a) eqn:Hna.
  - exists (no_answer_result q a), (no_answer_result q' a').
    split; [apply analyze_no_answer, Hna|].
    split; [apply analyze_no_answer; congruence|]. repeat split.
  - destruct (analyze_answered q a l c Hna) as (s & ok & Hs & Hr).
    destruct (analyze_answered q' a' l' c' ltac:(congruence))
      as (s' & ok' & Hs' & Hr').
    cbv zeta in *. rewrite <- Hq, <- Hl, <- Hc in Hs', Hr'.
    destruct (scored_lower _ a a' s s' ok ok' Ha Hlen Hs Hs') as [<- <-].
    eexists _, _. split; [exact Hr|]. split; [exact Hr'|].
    cbn [score is_correct feedback matched_keywords expected_keywords_count].
    rewrite (length_adequate_len a a' Hlen), (matched_count_lower _ a a' Ha).
    repeat split.
Qed.

Lemma analysis_case_insensitive_witness :
  exists r r',
    analyze_student_answer "What are the features of Python?" long_answer
      "Intro" "CS101" = Ok r
    /\ analyze_student_answer "WHAT ARE THE FEATURES OF PYTHON?"
         "Python Is Easy And Simple With Many Libraries And It Is Versatile Too"
         "INTRO" "cs101" = Ok r'
    /\ score r = score r' /\ is_correct r = is_correct r'.
Proof.
  destruct (analysis_case_insensitive
              "What are the features of Python?" long_answer "Intro" "CS101"
              "WHAT ARE THE FEATURES OF PYTHON?"
              "Python Is Easy And Simple With Many Libraries And It Is Versatile Too"
              "INTRO" "cs101" eq_refl eq_refl eq_refl eq_refl eq_refl)
    as (r & r' & Hr & Hr' & Hs & Hc & _).
  exists r, r'. repeat split; assumption.
Defined.

End CaseFacts.

Section SubstringFacts.

Lemma prefix_iff (a b : string) :
  String.prefix a b = true <-> exists post, b = (a ++ post)%string.
Proof.
  revert b. induction a as [|x a IH]; intros b.
  - cbn. split; [intros _; exists b; reflexivity|destruct b; reflexivity].
  - destruct b as [|y b]; cbn [String.prefix String.append].
    + split; [discriminate|intros [post H]].
      change ("" = String x (a ++ post))%string in H. discriminate.
    + destruct (Ascii.ascii_dec x y) as [->|Hne].
      * rewrite IH. split; intros [post H]; exists post.
        -- rewrite H. reflexivity.
        -- change (String y b = String y (a ++ post)%string) in H. congruence.
      * split; [discriminate|intros [post H]].
        change (String y b = String x (a ++ post)%string) in H. congruence.
Qed.

(** [needle in hay]: [hay] is [needle] between two strings. *)
Lemma contains_iff (a b : string) :
  contains a b = true <-> exists pre post, b = (pre ++ a ++ post)%string.
Proof.
  induction b as [|y b IH]; cbn [contains].
  - rewrite orb_false_r, prefix_iff. split.
    + intros [post H]. exists "", post. exact H.
    + intros (pre & post & H). destruct pre; [exists post; exact H|discriminate].
  - rewrite orb_true_iff, prefix_iff, IH. split.
    + intros [[post H]|(pre & post & H)].
      * exists "", post. exact H.
      * exists (String y pre), post. rewrite H. reflexivity.
    + intros (pre & post & H). destruct pre as [|x pre].
      * left. exists post. exact H.
      * right. change (String y b = String x (pre ++ a ++ post)%string) in H.
        injection H as -> H. exists pre, post. exact H.
Qed.

Lemma append_assoc (a b c : string) :
  ((a ++ b) ++ c = a ++ (b ++ c))%string.
Proof.
  induction a as [|x a IH]; [reflexivity|].
  change (String x ((a ++ b) ++ c) = String x (a ++ (b ++ c)))%string.
  rewrite IH. reflexivity.
Qed.

(** A substring of a substring is a substring. *)
Lemma contains_trans (a b c : string) :
  contains a b = true -> contains b c = true -> contains a c = true.
Proof.
  rewrite !contains_iff. intros (p1 & s1 & ->) (p2 & s2 & ->).
  exists (p2 ++ p1)%string, (s1 ++ s2)%string.
  rewrite !append_assoc. reflexivity.
Qed.

Lemma filter_two_length {A} (f : A -> bool) (l : list A) (x y : A) :
  In x l -> In y l -> x <> y -> f x = true -> f y = true ->
  (2 <= length (List.filter f l))%nat.
Proof.
  intros Hx Hy Hne Hfx Hfy.
  apply (NoDup_incl_length (l := [x; y])).
  - constructor; [intros [H|[]]; congruence|].
    constructor; [intros []|constructor].
  - intros z [<-|[<-|[]]]; apply filter_In; split; assumption.
Qed.

(** X5: keywords are matched as substrings: when one expected keyword lies
    inside another, an answer that contains the longer one is credited
    with both. *)
Theorem keyword_inside_keyword (q a l c kw kw' : string) :
  no_answer a = false ->
  let kws := expected_keywords (lower q) (lower l) (lower c) in
  In kw kws -> In kw' kws -> kw <> kw' ->
  contains kw kw' = true ->
  contains kw' (lower a) = true ->
  exists r matched,
    analyze_student_answer q a l c = Ok r
    /\ matched_keywords r = Some matched /\ 2 <= matched.
Proof.
  intros Hno kws Hkw Hkw' Hne Hin Ha.
  destruct (analyze_answered q a l c Hno) as (s & ok & _ & Hr).
  eexists _, _. split; [exact Hr|]. split; [reflexivity|].
  fold kws. unfold matched_count.
  pose proof (filter_two_length
                (fun keyword => contains keyword (lower a)) kws kw kw'
                Hkw Hkw' Hne (contains_trans _ _ _ Hin Ha) Ha).
  lia.
Qed.

Lemma keyword_inside_keyword_witness :
  exists r matched,
    analyze_student_answer
      "Describe the difference between lists and tuples in Python."
      "Tuples are immutable." "Python" "CS" = Ok r
    /\ matched_keywords r = Some matched /\ 2 <= matched.
Proof.
  apply (keyword_inside_keyword
           "Describe the difference between lists and tuples in Python."
           "Tuples are immutable." "Python" "CS" "mutable" "immutable");
    try reflexivity.
  - vm_compute. tauto.
  - vm_compute. tauto.
  - discriminate.
Defined.

(** X6: in the neural branch the structure keywords are chosen exactly when
    the question contains "structure": the test for "basic structure"
    that precedes it never decides. *)
Theorem structure_test_redundant (question_lower : string) :
  contains "basic structure" question_lower || contains "structure" question_lower
  = contains "structure" question_lower.
Proof.
  destruct (contains "basic structure" question_lower) eqn:H; [|reflexivity].
  symmetry. apply (contains_trans _ "basic structure"); [reflexivity|exact H].
Qed.

End SubstringFacts.

Section BatchExtremes.

(** X7: for a batch whose questions and answers can be encoded as
    UTF-8, the overall score is 100.0 when every answer is judged
    correct and 0.0 when none is, both exactly. *)
Theorem overall_score_extremes (encode_error : list analysis -> string)
    (request : AnswerRequest) :
  length (questions request) = length (answers request) ->
  questions request <> [] ->
  forallb encodable (questions request) = true ->
  forallb encodable (answers request) = true ->
  let response := analyze_answers encode_error request in
  ((forall r, In r (results response) -> is_correct r = true) ->
   overall_score response = Some (Float hundred))
  /\ ((forall r, In r (results response) -> is_correct r = false) ->
      overall_score response = Some (Float (S754_zero false))).
Proof.
  intros Hlen Hne Hq Ha.
  destruct (analyze_each_spec (lecture_title request) (course_name request)
              (combine (questions request) (answers request)))
    as (rs & Hrs & Hlenrs & _).
  destruct (analyze_answers_scored encode_error request Hlen)
    as (rs' & Hrs' & Hresp).
  assert (rs' = rs) as -> by congruence.
  rewrite Hq, Ha in Hresp. cbn [andb] in Hresp.
  cbv zeta. rewrite Hresp. cbn [results overall_score].
  assert (Hpos : (0 < length rs)%nat).
  { rewrite Hlenrs, length_combine, <- Hlen, Nat.min_id.
    destruct (questions request); [contradiction|cbn; lia]. }
  unfold percent_correct.
  destruct (Z.ltb_spec 0 (Z.of_nat (length rs))) as [_|]; [|lia].
  split; intros Hall.
  - rewrite filter_all_length by exact Hall.
    destruct (Z.of_nat (length rs)) as [|p|p] eqn:Hp; try lia.
    rewrite SFdiv_same. reflexivity.
  - rewrite filter_none_length by exact Hall.
    destruct (Z.of_nat (length rs)) as [|p|p] eqn:Hp; try lia.
    reflexivity.
Qed.

Lemma overall_score_extremes_witness :
  overall_score
    (analyze_answers (fun _ => EmptyString)
       {| lecture_title := "Python basics"; course_name := "CS";
          questions := ["q1"; "q2"];
          answers := [long_answer; long_answer] |})
  = Some (Float hundred).
Proof.
  apply (overall_score_extremes (fun _ => EmptyString)
           {| lecture_title := "Python basics"; course_name := "CS";
              questions := ["q1"; "q2"];
              answers := [long_answer; long_answer] |} eq_refl).
  - discriminate.
  - reflexivity.
  - reflexivity.
  - intros r Hr. vm_compute in Hr.
    repeat (destruct Hr as [<-|Hr]; [reflexivity|]). contradiction.
Defined.

End BatchExtremes.


(** ** The fallback questions *)

Section QuestionFacts.
Import Questions.

Lemma default_questions_distinct (l c : string) :
  List.NoDup (default_questions l c).
Proof.
  unfold default_questions.
  repeat (constructor;
          [intros H; vm_compute in H;
           repeat (destruct H as [H|H]; [discriminate H|]); exact H|]).
  constructor.
Qed.

(** X8: [generate_topic_specific_questions] returns five questions, no
    two of them the same, whatever the lecture title and the course
    name are. *)
Theorem five_distinct_questions (lecture_title course_name : string) :
  length (generate_topic_specific_questions lecture_title course_name) = 5%nat
  /\ List.NoDup
       (generate_topic_specific_questions lecture_title course_name).
Proof.
  unfold generate_topic_specific_questions.
  repeat match goal with
         | |- context [if ?b then _ else _] => destruct b
         end;
    (split; [reflexivity|]);
    try apply default_questions_distinct;
    repeat (constructor;
            [intros H; vm_compute in H;
             repeat (destruct H as [H|H]; [discriminate H|]); exact H|]);
    constructor.
Qed.

(** X9: the fallback questions do not depend on the case of the title
    and of the course name: the default questions name the lower-cased
    title and course. *)
Theorem questions_ignore_case (lecture_title course_name : string) :
  generate_topic_specific_questions lecture_title course_name
  = generate_topic_specific_questions (lower lecture_title)
      (lower course_name).
Proof.
  unfold generate_topic_specific_questions.
  rewrite !lower_idempotent. reflexivity.
Qed.

(** X10: on a lower-cased title and course the stand-in crew returns
    the serialised questions of [generate_topic_specific_questions],
    whatever [json.dumps] does. *)
Theorem mock_questions_agree (dumps : list string -> string)
    (lecture_title course_name : string) :
  generate_questions dumps (lower lecture_title) (lower course_name)
  = dumps (generate_topic_specific_questions lecture_title course_name).
Proof.
  unfold generate_questions, generate_topic_specific_questions.
  rewrite !lower_idempotent.
  repeat match goal with
         | |- context [if ?b then _ else _] => destruct b
         end; reflexivity.
Qed.

End QuestionFacts.

(** ** How the fallback questions are graded *)

Section BankGrading.
Import Questions.

(** The tests on the title and the course that no hypothesis settles,
    and the key terms of the generic branch, are left as they are; the
    tests on the question are computed. *)
Ltac eval_tests L C :=
  repeat match goal with
         | |- context [elements (key_terms L ?q)] =>
             generalize (elements (key_terms L q)); intro
         end;
  repeat match goal with
         | |- context [contains ?k L] => generalize (contains k L); intro
         | |- context [contains ?k C] => generalize (contains k C); intro
         end;
  vm_compute.

Ltac bank_cases H :=
  unfold generate_topic_specific_questions in H;
  repeat match type of H with
         | context [if ?b then _ else _] =>
             let E := fresh "E" in destruct b eqn:E
         end;
  cbv beta iota in H;
  try discriminate H;
  try (unfold default_questions in H;
       apply (f_equal (hd EmptyString)) in H; vm_compute in H;
       discriminate H).

Lemma machine_learning_bank (l c : string) :
  generate_topic_specific_questions l c = machine_learning_questions ->
  contains "python" (lower l) = false
  /\ contains "python" (lower c) = false
  /\ contains "machine learning" (lower l)
     || contains "machine learning" (lower c) = true.
Proof.
  intros H. bank_cases H.
  apply orb_false_iff in E. tauto.
Qed.

Lemma neural_network_bank (l c : string) :
  generate_topic_specific_questions l c = neural_network_questions ->
  contains "python" (lower l) = false
  /\ contains "machine learning" (lower l) = false
  /\ contains "machine learning" (lower c) = false.
Proof.
  intros H. bank_cases H.
  apply orb_false_iff in E, E0. tauto.
Qed.

Lemma data_analysis_bank (l c : string) :
  generate_topic_specific_questions l c = data_analysis_questions ->
  contains "python" (lower l) = false
  /\ contains "machine learning" (lower l) = false
  /\ contains "machine learning" (lower c) = false
  /\ contains "deep learning" (lower c) = false.
Proof.
  intros H. bank_cases H.
  apply orb_false_iff in E, E0, E1. tauto.
Qed.

(** X11: each of the five Python questions of the fallback bank is
    graded against the keyword list written for it, whatever the
    lecture and the course are. *)
Theorem python_bank_keywords (lecture_title course_name : string) :
  map (fun question =>
         expected_keywords (lower question) (lower lecture_title)
           (lower course_name))
      python_questions
  = [["readability"; "easy"; "simple"; "libraries"; "versatile";
      "interpreted"];
     ["dynamic"; "typing"; "declaration"; "assignment"; "type"];
     ["mutable"; "immutable"; "parentheses"; "brackets"; "modify"];
     ["import"; "organization"; "reuse"; "namespace"; "library"];
     ["try"; "except"; "catch"; "handle"; "error"; "finally"]].
Proof.
  generalize (lower lecture_title) (lower course_name). intros L C.
  unfold python_questions, expected_keywords. cbn [map].
  eval_tests L C. reflexivity.
Qed.

(** X12: when the fallback bank is the machine-learning one, its second
    question, on supervised and unsupervised learning, is graded
    against the keywords of the first: its text contains "differ",
    which is tested before "supervised". The other four get their own
    lists. *)
Theorem machine_learning_bank_keywords (lecture_title course_name : string) :
  generate_topic_specific_questions lecture_title course_name
  = machine_learning_questions ->
  map (fun question =>
         expected_keywords (lower question) (lower lecture_title)
           (lower course_name))
      machine_learning_questions
  = [["data"; "patterns"; "algorithm"; "explicit"; "programming"; "learn"];
     ["data"; "patterns"; "algorithm"; "explicit"; "programming"; "learn"];
     ["generalization"; "validation"; "overfitting"; "performance";
      "evaluate"];
     ["regularization"; "validation"; "generalize"; "complex"; "flexible"];
     ["accuracy"; "precision"; "recall"; "f1"; "auc"; "roc"]].
Proof.
  intros H. apply machine_learning_bank in H. revert H.
  generalize (lower lecture_title) (lower course_name).
  intros L C (HpL & _ & Hml).
  unfold machine_learning_questions, expected_keywords. cbn [map].
  rewrite !HpL.
  destruct (contains "machine learning" L);
    [|destruct (contains "machine learning" C); [|discriminate Hml]];
    eval_tests L C; reflexivity.
Qed.

Lemma machine_learning_bank_keywords_witness :
  map (fun question =>
         expected_keywords (lower question) (lower "Intro")
           (lower "Machine Learning 101"))
      machine_learning_questions
  = [["data"; "patterns"; "algorithm"; "explicit"; "programming"; "learn"];
     ["data"; "patterns"; "algorithm"; "explicit"; "programming"; "learn"];
     ["generalization"; "validation"; "overfitting"; "performance";
      "evaluate"];
     ["regularization"; "validation"; "generalize"; "complex"; "flexible"];
     ["accuracy"; "precision"; "recall"; "f1"; "auc"; "roc"]].
Proof.
  apply (machine_learning_bank_keywords "Intro" "Machine Learning 101").
  reflexivity.
Defined.

(** X13: when the fallback bank is the neural-network one and neither
    the title nor the course contains "deep learning", the first four
    questions get their own lists, and the fifth, on transfer learning,
    does not: it contains no "neural", and is graded against no keyword
    at all under an analytics title or course, against the words of the
    title and of the question otherwise. *)
Theorem neural_network_bank_keywords (lecture_title course_name : string) :
  generate_topic_specific_questions lecture_title course_name
  = neural_network_questions ->
  contains "deep learning" (lower lecture_title) = false ->
  contains "deep learning" (lower course_name) = false ->
  map (fun question =>
         expected_keywords (lower question) (lower lecture_title)
           (lower course_name))
      neural_network_questions
  = [["input"; "hidden"; "output"; "layer"; "weight"; "bias"; "neuron"];
     ["relu"; "sigmoid"; "tanh"; "non-linear"; "function"];
     ["filter"; "kernel"; "convolution"; "pooling"; "feature"; "image"];
     ["gradient"; "descent"; "error"; "weight"; "update"; "learning"];
     if contains "analytics" (lower lecture_title)
        || contains "analytics" (lower course_name)
     then []
     else elements
            (key_terms (lower lecture_title)
               (lower "Describe the concept of transfer learning in deep learning."))].
Proof.
  intros H. apply neural_network_bank in H. revert H.
  generalize (lower lecture_title) (lower course_name).
  intros L C (HpL & HmlL & HmlC) HdlL HdlC.
  unfold neural_network_questions, expected_keywords. cbn [map].
  rewrite !HpL, !HmlL, !HmlC, !HdlL, !HdlC.
  eval_tests L C. reflexivity.
Qed.

Lemma neural_network_bank_keywords_witness :
  nth 4
    (map (fun question =>
            expected_keywords (lower question) (lower "Neural Networks")
              (lower "Artificial Intelligence"))
       neural_network_questions) []
  = elements
      (key_terms (lower "Neural Networks")
         (lower "Describe the concept of transfer learning in deep learning.")).
Proof.
  rewrite (neural_network_bank_keywords "Neural Networks"
             "Artificial Intelligence" eq_refl eq_refl eq_refl).
  reflexivity.
Defined.

(** X14: when the fallback bank is the data-analysis one and the title
    does not contain "deep learning", only the two questions that
    contain "data" are sure of their own lists; the other three get
    them under an analytics title or course only, and are graded
    against the words of the title and of the question otherwise. *)
Theorem data_analysis_bank_keywords (lecture_title course_name : string) :
  generate_topic_specific_questions lecture_title course_name
  = data_analysis_questions ->
  contains "deep learning" (lower lecture_title) = false ->
  let analytics :=
    contains "analytics" (lower lecture_title)
    || contains "analytics" (lower course_name) in
  let generic question :=
    elements (key_terms (lower lecture_title) (lower question)) in
  map (fun question =>
         expected_keywords (lower question) (lower lecture_title)
           (lower course_name))
      data_analysis_questions
  = [["collection"; "cleaning"; "exploration"; "analysis"; "visualization";
      "interpretation"];
     if analytics
     then ["summarize"; "population"; "sample"; "hypothesis"; "testing";
           "inference"]
     else generic
            "Explain the difference between descriptive and inferential statistics.";
     ["imputation"; "deletion"; "mean"; "median"; "mode"; "regression"];
     if analytics
     then ["transformation"; "selection"; "creation"; "normalization";
           "scaling"]
     else generic "What is feature engineering and why is it important?";
     if analytics
     then ["chart"; "graph"; "plot"; "dashboard"; "histogram"; "scatter"]
     else generic
            "Describe different visualization techniques and when you would use each one."].
Proof.
  intros H. apply data_analysis_bank in H. revert H.
  generalize (lower lecture_title) (lower course_name).
  intros L C (HpL & HmlL & HmlC & HdlC) HdlL analytics generic.
  subst analytics generic.
  unfold data_analysis_questions, expected_keywords. cbn [map].
  rewrite !HpL, !HmlL, !HmlC, !HdlL, !HdlC.
  eval_tests L C. reflexivity.
Qed.

Lemma data_analysis_bank_keywords_witness :
  map (fun question =>
         expected_keywords (lower question) (lower "Data Cleaning")
           (lower "Statistics"))
      data_analysis_questions
  = [["collection"; "cleaning"; "exploration"; "analysis"; "visualization";
      "interpretation"];
     elements
       (key_terms (lower "Data Cleaning")
          (lower "Explain the difference between descriptive and inferential statistics."));
     ["imputation"; "deletion"; "mean"; "median"; "mode"; "regression"];
     elements
       (key_terms (lower "Data Cleaning")
          (lower "What is feature engineering and why is it important?"));
     elements
       (key_terms (lower "Data Cleaning")
          (lower "Describe different visualization techniques and when you would use each one."))].
Proof.
  exact (data_analysis_bank_keywords "Data Cleaning" "Statistics"
           eq_refl eq_refl).
Defined.

End BankGrading.

(** ** The parser of the crew's answer *)

Section RegexFacts.
Import Re Quiz Questions.

(** What follows the group in the two patterns. *)
Local Abbreviation k_close := (match_here [Lit "]"%char]).
Local Abbreviation k_close_rest := (match_here [Lit "]"%char; Star true false]).

Lemma append_nil_r (s : string) : (s ++ "")%string = s.
Proof.
  induction s as [|x s IH]; [reflexivity|].
  change (String x (s ++ "") = String x s)%string. rewrite IH. reflexivity.
Qed.

Lemma append_char (taken g : string) (x : ascii) :
  ((taken ++ String x "") ++ g = taken ++ String x g)%string.
Proof. rewrite append_assoc. reflexivity. Qed.

(** [c in s] for a one-character string. *)
Lemma contains_char (x y : ascii) (s : string) :
  contains (String x "") (String y s)
  = Ascii.eqb x y || contains (String x "") s.
Proof.
  cbn [contains String.prefix].
  destruct (Ascii.ascii_dec x y) as [->|Hne].
  - rewrite Ascii.eqb_refl. destruct s; reflexivity.
  - apply Ascii.eqb_neq in Hne. rewrite Hne. reflexivity.
Qed.

Lemma contains_char_app (x : ascii) (a b : string) :
  contains (String x "") (a ++ String x b) = true.
Proof.
  apply contains_iff. exists a, b. reflexivity.
Qed.

Lemma k_close_cons (x : ascii) (s : string) :
  k_close (String x s)
  = if Ascii.eqb "]" x then Some (EmptyString, s) else None.
Proof. reflexivity. Qed.

(** The greedy group before the closing bracket finds no match exactly
    in a text without closing bracket. *)
Lemma star_close_none (s taken : string) :
  star true true k_close taken s = None <-> contains "]" s = false.
Proof.
  revert taken. induction s as [|x s IH]; intros taken.
  - split; reflexivity.
  - cbn [star]. rewrite contains_char, orb_false_iff, <- (IH (taken ++ String x "")%string).
    unfold finish. rewrite k_close_cons.
    destruct (star true true k_close (taken ++ String x "") s) as [r|];
      destruct (Ascii.eqb "]" x); split; try tauto; try discriminate;
      intros [H1 H2]; discriminate.
Qed.

(** It stops at the last closing bracket. *)
Lemma star_close_last (g post taken : string) :
  contains "]" post = false ->
  star true true k_close taken (g ++ String "]" post)
  = Some ((taken ++ g)%string, post).
Proof.
  intros Hpost. revert taken. induction g as [|x g IH]; intros taken.
  - change ("" ++ String "]" post)%string with (String "]" post).
    cbn [star].
    rewrite (proj2 (star_close_none post (taken ++ String "]" "")%string) Hpost).
    unfold finish. rewrite k_close_cons, append_nil_r. reflexivity.
  - change (String x g ++ String "]" post)%string
      with (String x (g ++ String "]" post)).
    cbn [star]. rewrite IH, append_char. reflexivity.
Qed.

Lemma star_close_sound (s taken t rest : string) :
  star true true k_close taken s = Some (t, rest) ->
  exists g, t = (taken ++ g)%string /\ s = (g ++ String "]" rest)%string
            /\ contains "]" rest = false.
Proof.
  revert taken. induction s as [|x s IH]; intros taken.
  - discriminate.
  - cbn [star].
    destruct (star true true k_close (taken ++ String x "") s) as [r|] eqn:E.
    + intros H. injection H as ->. apply IH in E.
      destruct E as (g & -> & -> & Hrest).
      exists (String x g). rewrite append_char. auto.
    + unfold finish. rewrite k_close_cons.
      destruct (Ascii.eqb "]" x) eqn:Ex; [|discriminate].
      intros H. injection H as <- <-. apply Ascii.eqb_eq in Ex. subst x.
      exists "". rewrite append_nil_r. apply star_close_none in E. auto.
Qed.

Lemma match_here_brackets_cons (x : ascii) (s : string) :
  match_here brackets (String x s)
  = if Ascii.eqb "[" x then star true true k_close "" s else None.
Proof. reflexivity. Qed.

(** [re.search] with the pattern [brackets] finds the text between the
    first opening bracket and the last closing bracket. *)
Lemma search_brackets_span (s g : string) :
  search brackets s = Some g
  <-> exists pre post,
        s = (pre ++ String "[" (g ++ String "]" post))%string
        /\ contains "[" pre = false /\ contains "]" post = false.
Proof.
  split.
  - induction s as [|x s IH]; [discriminate|].
    cbn [search]. rewrite match_here_brackets_cons.
    destruct (Ascii.eqb "[" x) eqn:Ex.
    + apply Ascii.eqb_eq in Ex. subst x.
      destruct (star true true k_close "" s) as [[t rest]|] eqn:E.
      * intros H. injection H as ->. apply star_close_sound in E.
        destruct E as (g' & -> & -> & Hrest).
        exists "", rest. auto.
      * intros H. apply IH in H. destruct H as (pre & post & -> & _).
        apply star_close_none in E.
        assert (Hc : contains "]" (pre ++ String "[" (g ++ String "]" post))
                     = true).
        { change (String "[" (g ++ String "]" post))
            with (String "[" "" ++ (g ++ String "]" post))%string.
          rewrite <- !append_assoc. apply contains_char_app. }
        congruence.
    + intros H. apply IH in H. destruct H as (pre & post & -> & Hpre & Hpost).
      exists (String x pre), post. rewrite contains_char, Ex, Hpre. auto.
  - intros (pre & post & -> & Hpre & Hpost).
    induction pre as [|x pre IH].
    + change ("" ++ String "[" (g ++ String "]" post))%string
        with (String "[" (g ++ String "]" post)).
      cbn [search]. rewrite match_here_brackets_cons. cbn [Ascii.eqb Bool.eqb].
      rewrite star_close_last by exact Hpost. reflexivity.
    + rewrite contains_char in Hpre. apply orb_false_iff in Hpre.
      destruct Hpre as [Ex Hpre].
      change (String x pre ++ String "[" (g ++ String "]" post))%string
        with (String x (pre ++ String "[" (g ++ String "]" post))).
      cbn [search]. rewrite match_here_brackets_cons, Ex. apply IH, Hpre.
Qed.

(** The greedy star at the end of a pattern takes all that is left. *)
Lemma star_to_the_end (s taken : string) :
  star true false (match_here []) taken s = Some (EmptyString, EmptyString).
Proof.
  revert taken. induction s as [|x s IH]; intros taken; [reflexivity|].
  cbn [star]. rewrite IH. reflexivity.
Qed.

Lemma k_close_rest_spec (s : string) :
  k_close_rest s
  = match k_close s with
    | Some _ => Some (EmptyString, EmptyString)
    | None => None
    end.
Proof.
  destruct s as [|x s]; [reflexivity|].
  cbn [match_here].
  destruct (Ascii.eqb "]" x); [apply star_to_the_end|reflexivity].
Qed.

Lemma star_close_rest (s taken : string) :
  star true true k_close_rest taken s
  = match star true true k_close taken s with
    | Some (g, _) => Some (g, EmptyString)
    | None => None
    end.
Proof.
  revert taken. induction s as [|x s IH]; intros taken; [reflexivity|].
  cbn [star]. rewrite IH.
  destruct (star true true k_close (taken ++ String x "") s) as [[g r]|];
    [reflexivity|].
  unfold finish. rewrite k_close_rest_spec.
  destruct (k_close (String x s)) as [[g r]|]; reflexivity.
Qed.

(** The pattern of [re.sub] matches at the start of a text, and up to
    its end, when the pattern of [re.search] matches somewhere, with
    the same group. *)
Lemma match_here_brackets_anywhere (s : string) :
  match_here brackets_anywhere s
  = match search brackets s with
    | Some g => Some (g, EmptyString)
    | None => None
    end.
Proof.
  change (match_here brackets_anywhere)
    with (star false false (match_here (tl brackets_anywhere)) "").
  generalize EmptyString at 1.
  assert (Hk : forall s,
             match_here (tl brackets_anywhere) s
             = match match_here brackets s with
               | Some (g, _) => Some (g, EmptyString)
               | None => None
               end).
  { intros [|x t]; [reflexivity|].
    rewrite match_here_brackets_cons. cbn [tl brackets_anywhere match_here].
    destruct (Ascii.eqb "[" x); [|reflexivity].
    apply star_close_rest. }
  induction s as [|x s IH]; intros taken.
  - reflexivity.
  - cbn [star search]. unfold finish. rewrite Hk.
    destruct (match_here brackets (String x s)) as [[g r]|];
      [reflexivity|apply IH].
Qed.

Lemma sub_from_empty (n : nat) : sub_from brackets_anywhere n "" = "".
Proof. destruct n; reflexivity. Qed.

Lemma sub_from_no_match (n : nat) (s : string) :
  search brackets s = None -> sub_from brackets_anywhere n s = s.
Proof.
  revert s. induction n as [|n IH]; intros s H; [reflexivity|].
  cbn [sub_from]. rewrite match_here_brackets_anywhere, H.
  destruct s as [|x s]; [reflexivity|].
  rewrite IH; [reflexivity|].
  cbn [search] in H. destruct (match_here brackets (String x s)) as [[g r]|];
    [discriminate|exact H].
Qed.

(** [re.sub] with the pattern [brackets_anywhere] gives the span that
    [re.search] with [brackets] finds, in brackets, and leaves a text
    without such a span as it is. *)
Lemma sub_brackets_anywhere (s : string) :
  sub brackets_anywhere s
  = match search brackets s with
    | Some g => ("[" ++ g ++ "]")%string
    | None => s
    end.
Proof.
  unfold sub. destruct (search brackets s) as [g|] eqn:E.
  - cbn [sub_from]. rewrite match_here_brackets_anywhere, E, sub_from_empty.
    reflexivity.
  - apply sub_from_no_match, E.
Qed.

(** X15: of a reply of the crew, [generate_quiz] hands to [json.loads]
    the text from the first opening bracket to the last closing
    bracket: what precedes and follows the array is dropped, and two
    arrays in a reply are read as one text. *)
Theorem first_parse_bracket_span {json : Type}
    (json_loads : string -> option json) (pre g post : string) :
  contains "[" pre = false ->
  contains "]" post = false ->
  first_parse json_loads (RawStr (pre ++ "[" ++ g ++ "]" ++ post))
  = json_loads ("[" ++ g ++ "]")%string.
Proof.
  intros Hpre Hpost. unfold first_parse.
  rewrite (proj2 (search_brackets_span _ g)); [reflexivity|].
  exists pre, post. auto.
Qed.

Lemma first_parse_bracket_span_witness :
  first_parse (fun s => Some s)
    (RawStr "Here you go: [1, 2] and [3]. Enjoy!")
  = Some "[1, 2] and [3]".
Proof.
  exact (first_parse_bracket_span (fun s => Some s) "Here you go: "
           "1, 2] and [3" ". Enjoy!" eq_refl eq_refl).
Defined.

(** X16: a reply without an opening bracket that a closing bracket
    follows is handed to [json.loads] as it is. *)
Theorem first_parse_no_brackets {json : Type}
    (json_loads : string -> option json) (s : string) :
  (forall pre g post, s <> (pre ++ "[" ++ g ++ "]" ++ post)%string) ->
  first_parse json_loads (RawStr s) = json_loads s.
Proof.
  intros H. unfold first_parse.
  destruct (search brackets s) as [g|] eqn:E; [|reflexivity].
  apply search_brackets_span in E. destruct E as (pre & post & E & _).
  destruct (H pre g post E).
Qed.

Lemma first_parse_no_brackets_witness :
  first_parse (fun s => Some s) (RawStr "no list here")
  = Some "no list here".
Proof.
  apply (first_parse_no_brackets (fun s => Some s) "no list here").
  intros pre g post H.
  assert (Hc : contains "[" "no list here" = true).
  { apply contains_iff. exists pre, (g ++ "]" ++ post)%string. exact H. }
  vm_compute in Hc. discriminate Hc.
Defined.

(** X17: the cleanup in the [except json.JSONDecodeError] handler never
    helps: [re.sub] rebuilds the text that [json.loads] has just
    refused, so that after a decoding error the questions are always
    those of [generate_topic_specific_questions]. *)
Theorem cleanup_never_recovers {json : Type}
    (json_loads : string -> option json) (raw_questions : raw json)
    (lecture_title course_name : string) :
  first_parse json_loads raw_questions = None ->
  parse_raw_questions json_loads raw_questions lecture_title course_name
  = Fallback (generate_topic_specific_questions lecture_title course_name).
Proof.
  intros H. unfold parse_raw_questions. rewrite H.
  destruct raw_questions as [s|j]; [|reflexivity].
  rewrite sub_brackets_anywhere. unfold first_parse in H.
  destruct (search brackets s); rewrite H; reflexivity.
Qed.

Lemma cleanup_never_recovers_witness :
  parse_raw_questions
    (fun s => if String.eqb s "[]" then Some tt else None)
    (RawStr "Questions: [What is a list?] (end)") "Python lists" "CS 101"
  = Fallback python_questions.
Proof.
  exact (cleanup_never_recovers
           (fun s => if String.eqb s "[]" then Some tt else None)
           (RawStr "Questions: [What is a list?] (end)") "Python lists"
           "CS 101" eq_refl).
Defined.

End RegexFacts.

(** ** Words of the question in the answer *)

Section EchoFacts.

(** Every word of [s.split()] is a part of [s]. *)
Lemma split_from_contains (s cur t : string) :
  In t (split_from cur s) ->
  exists pre post, (cur ++ s = pre ++ t ++ post)%string.
Proof.
  revert cur. induction s as [|ch s IH]; intros cur; cbn [split_from].
  - destruct cur as [|x cur]; [intros []|].
    intros [<-|[]]. exists "", "". reflexivity.
  - destruct (isspace ch).
    + destruct cur as [|x cur].
      * intros Ht. destruct (IH "" Ht) as (pre & post & Hs).
        change ("" ++ s)%string with s in Hs.
        exists (String ch pre), post. rewrite Hs. reflexivity.
      * intros [<-|Ht].
        -- exists "", (String ch s). reflexivity.
        -- destruct (IH "" Ht) as (pre & post & Hs).
           change ("" ++ s)%string with s in Hs.
           exists (String x cur ++ String ch pre)%string, post.
           rewrite Hs, !append_assoc. reflexivity.
    + intros Ht. destruct (IH _ Ht) as (pre & post & Hs).
      exists pre, post. rewrite <- Hs, append_char. reflexivity.
Qed.

Lemma split_contains (s t : string) :
  In t (split s) -> contains t s = true.
Proof.
  intros Ht. apply contains_iff. exact (split_from_contains s "" t Ht).
Qed.

(** X18: when no topic is recognised, the expected keywords are words of
    the question and of the lecture title, so that an answer of 50
    characters or more that repeats the question and the title scores
    100 and is correct. *)
Theorem echo_scores_100 (q a l c : string) :
  topic_of (lower q) (lower l) (lower c) = Generic ->
  key_terms (lower l) (lower q) <> ∅ ->
  no_answer a = false ->
  length_adequate a = true ->
  contains (lower q) (lower a) = true ->
  contains (lower l) (lower a) = true ->
  exists r,
    analyze_student_answer q a l c = Ok r
    /\ score r = 100 /\ is_correct r = true /\ feedback r = msg_excellent.
Proof.
  intros Htopic Hne Hno Hlen Hq Hl.
  pose proof (expected_keywords_generic _ _ _ Htopic) as Hkws.
  assert (Hnil : expected_keywords (lower q) (lower l) (lower c) <> []).
  { rewrite Hkws. intros H. apply Hne.
    apply leibniz_equiv, elements_empty_iff. exact H. }
  assert (Hall : forall kw,
             In kw (expected_keywords (lower q) (lower l) (lower c)) ->
             contains kw (lower a) = true).
  { intros kw. rewrite Hkws, <- list_elem_of_In, elem_of_elements, key_terms_elem.
    intros [[Hin _]|[Hin _]]; apply split_contains in Hin.
    - exact (contains_trans _ _ _ Hin Hl).
    - exact (contains_trans _ _ _ Hin Hq). }
  destruct (analyze_with_keywords q a l c Hno Hnil)
    as (r & t & Hr & Hp & Hs & Hc & Hf & _).
  cbv zeta in Hp. unfold matched_count in Hp.
  rewrite filter_all_length in Hp by exact Hall.
  rewrite percent_all in Hp.
  2:{ destruct (expected_keywords (lower q) (lower l) (lower c));
      [contradiction|cbn [length]; lia]. }
  injection Hp as <-. rewrite Hlen in Hs, Hf.
  exists r. split; [exact Hr|].
  assert (Hs' : score r = 100) by exact Hs.
  rewrite Hs' in Hc, Hf. repeat split; assumption.
Qed.

Lemma echo_scores_100_witness :
  exists r,
    analyze_student_answer "Explain the halting problem."
      "Explain the halting problem. Computability is the topic here."
      "Computability" "Theory" = Ok r
    /\ score r = 100 /\ is_correct r = true /\ feedback r = msg_excellent.
Proof.
  apply echo_scores_100; try reflexivity.
  intros H.
  assert (Hin : "halting" ∈ key_terms (lower "Computability")
                              (lower "Explain the halting problem.")).
  { apply key_terms_elem. right. vm_compute. repeat split; try lia; auto.
    intros Hs. repeat (destruct Hs as [Hs|Hs]; [discriminate Hs|]).
    exact Hs. }
  rewrite H in Hin. exact (not_elem_of_empty _ Hin).
Defined.

End EchoFacts.

Section BatchNeverFails.


End BatchNeverFails.

(** ** Longer answers *)

Section LongerAnswers.

Lemma len_append (a b : string) : len (a ++ b) = (len a + len b)%nat.
Proof.
  unfold len. induction a as [|x a IH]; [reflexivity|].
  change (S (String.length (a ++ b)) = S (String.length a + String.length b)).
  rewrite IH. reflexivity.
Qed.

Lemma all_space_append (a b : string) :
  all_space (a ++ b) = all_space a && all_space b.
Proof.
  induction a as [|x a IH]; [reflexivity|].
  change (all_space (String x (a ++ b)) = all_space (String x a) && all_space b).
  cbn [all_space]. rewrite IH. apply andb_assoc.
Qed.

Lemma contains_append (kw a b : string) :
  contains kw a = true -> contains kw (a ++ b) = true.
Proof.
  rewrite !contains_iff. intros (pre & post & ->).
  exists pre, (post ++ b)%string. rewrite !append_assoc. reflexivity.
Qed.

Lemma filter_length_mono {A} (f g : A -> bool) (l : list A) :
  (forall x, f x = true -> g x = true) ->
  (length (List.filter f l) <= length (List.filter g l))%nat.
Proof.
  intros Hfg. induction l as [|x l IH]; [reflexivity|].
  cbn [List.filter]. destruct (f x) eqn:Hf.
  - rewrite (Hfg x Hf). cbn [length]. lia.
  - destruct (g x); cbn [length]; lia.
Qed.

Lemma matched_count_append (kws : list string) (a b : string) :
  lower (a ++ b) = (lower a ++ lower b)%string ->
  matched_count kws a <= matched_count kws (a ++ b).
Proof.
  intros Hlow. unfold matched_count. apply inj_le, filter_length_mono.
  intros kw. rewrite Hlow. apply contains_append.
Qed.

(** X20: text added at the end of an answer does not lower its score,
    as long as the lower-cased answer stays as it was in front of the
    added text ([(a + b).lower() == a.lower() + b.lower()], which holds
    in ASCII and fails, for one, after a final capital sigma). With
    fewer than 50 expected keywords, the answer [a ++ b] then scores at
    least as much as the answered [a], matches at least as many
    keywords, and is judged correct if [a] is. *)
Theorem longer_answer_never_scores_less (q a b l c : string) :
  no_answer a = false ->
  lower (a ++ b) = (lower a ++ lower b)%string ->
  (length (expected_keywords (lower q) (lower l) (lower c)) < 50)%nat ->
  exists r r' k k',
    analyze_student_answer q a l c = Ok r
    /\ analyze_student_answer q (a ++ b) l c = Ok r'
    /\ score r <= score r'
    /\ (is_correct r = true -> is_correct r' = true)
    /\ matched_keywords r = Some k /\ matched_keywords r' = Some k'
    /\ k <= k'.
Proof.
  intros Hno Hlow Hn.
  assert (Hno' : no_answer (a ++ b) = false).
  { rewrite no_answer_all_space in *. rewrite all_space_append, Hno.
    reflexivity. }
  assert (Hlen : length_adequate a = true -> length_adequate (a ++ b) = true).
  { rewrite !length_adequate_iff, len_append. lia. }
  pose proof (matched_count_append
                (expected_keywords (lower q) (lower l) (lower c)) a b Hlow)
    as Hk.
  pose proof (matched_count_bounds
                (expected_keywords (lower q) (lower l) (lower c)) a) as Hb.
  pose proof (matched_count_bounds
                (expected_keywords (lower q) (lower l) (lower c)) (a ++ b))
    as Hb'.
  destruct (analyze_answered q a l c Hno) as (s & ok & Hs & Hr).
  destruct (analyze_answered q (a ++ b) l c Hno') as (s' & ok' & Hs' & Hr').
  cbv zeta in Hs, Hs', Hr, Hr'.
  eexists _, _, _, _. split; [exact Hr|]. split; [exact Hr'|].
  cbn [score is_correct matched_keywords].
  assert (Hscore : s <= s' /\ (ok = true -> ok' = true)).
  { unfold scored in Hs, Hs'.
    destruct (expected_keywords (lower q) (lower l) (lower c)) as [|kw kws].
    - destruct Hs as [-> ->], Hs' as [-> ->]. split; [|exact Hlen].
      destruct (length_adequate a).
      + rewrite Hlen by reflexivity. lia.
      + destruct (length_adequate (a ++ b)); lia.
    - destruct Hs as (t & Hp & _ & -> & ->), Hs' as (t' & Hp' & _ & -> & ->).
      set (n := Z.of_nat (length (kw :: kws))) in *.
      assert (Hn' : 0 < n < 50) by (subst n; cbn [length] in *; lia).
      rewrite percent_exact in Hp, Hp' by lia.
      injection Hp as <-. injection Hp' as <-.
      assert (Ht : 100 * matched_count (kw :: kws) a / n
                   <= 100 * matched_count (kw :: kws) (a ++ b) / n).
      { apply Z.div_le_mono; lia. }
      assert (H0 : 0 <= 100 * matched_count (kw :: kws) a / n).
      { apply Z.div_pos; lia. }
      assert (Hle : penalize (length_adequate a)
                      (clamp (100 * matched_count (kw :: kws) a / n) 0 100)
                    <= penalize (length_adequate (a ++ b))
                         (clamp (100 * matched_count (kw :: kws) (a ++ b) / n)
                            0 100)).
      { unfold penalize, clamp. destruct (length_adequate a).
        - rewrite Hlen by reflexivity. lia.
        - destruct (length_adequate (a ++ b)); lia. }
      split; [exact Hle|]. rewrite !Z.leb_le. lia. }
  destruct Hscore as [H1 H2].
  split; [exact H1|]. split; [exact H2|].
  split; [reflexivity|]. split; [reflexivity|exact Hk].
Qed.

Lemma longer_answer_never_scores_less_witness :
  exists r r' k k',
    analyze_student_answer "What are the features of Python?" "It is easy"
      "Intro" "CS101" = Ok r
    /\ analyze_student_answer "What are the features of Python?"
         ("It is easy" ++ " and simple, with many libraries for every task.")
         "Intro" "CS101" = Ok r'
    /\ score r <= score r'
    /\ (is_correct r = true -> is_correct r' = true)
    /\ matched_keywords r = Some k /\ matched_keywords r' = Some k'
    /\ k <= k'.
Proof.
  apply longer_answer_never_scores_less; [reflexivity|reflexivity|].
  vm_compute. lia.
Defined.

End LongerAnswers.

(** ** The handler of uncaught exceptions *)

Section HandlerFacts.
Import Handler Questions.


(** The questions on the defaults of the handler encode. *)
Lemma default_topic_encodable :
  forallb encodable
    (generate_topic_specific_questions "Unknown Topic" "General Course")
  = true.
Proof. vm_compute. reflexivity. Qed.


(** X22: without a lecture title and a course name in the body, or
    without a JSON object as body, the questions of the handler are the
    default ones on "unknown topic" in "general course", in lower
    case. *)
Theorem handler_default_questions (request_json : body)
    (exc_str tb : string) :
  (forall d, request_json = Dict d ->
             d !! "lecture_title" = None /\ d !! "course_name" = None) ->
  exists r,
    global_exception_handler request_json exc_str tb = Some r
    /\ status_code r = 500
    /\ questions r = default_questions "unknown topic" "general course".
Proof.
  intros H. unfold global_exception_handler.
  destruct request_json as [| |d].
  3: destruct (H d eq_refl) as [-> ->]; cbn [default].
  all: rewrite default_topic_encodable;
    eexists; split; [reflexivity|split; reflexivity].
Qed.

Lemma handler_default_questions_witness :
  exists r,
    global_exception_handler (Dict {[ "topic" := VStr "Python" ]})
      "boom" "" = Some r
    /\ status_code r = 500
    /\ questions r = default_questions "unknown topic" "general course".
Proof.
  apply handler_default_questions.
  intros d H. injection H as <-. split; reflexivity.
Defined.

End HandlerFacts.

(** ** The course store *)

Section CourseStore.
Import Backend.

Context {value : Type} `{EqDecision value} (str : string -> value).
Context {json : Type} (jsonify : @content value -> option json).

Implicit Types (courses pre post : list (@course value)) (c : @course value).

Lemma find_course_app pre post (j : Z) :
  find_course (pre ++ post) j
  = match find_course pre j with
    | Some c => Some c
    | None => find_course post j
    end.
Proof.
  unfold find_course. induction pre as [|x pre IH]; [reflexivity|].
  cbn [app find]. destruct (id x =? j); [reflexivity|exact IH].
Qed.

Lemma find_course_none courses (j : Z) :
  find_course courses j = None <-> forall c, In c courses -> id c <> j.
Proof.
  unfold find_course. induction courses as [|x courses IH]; cbn [find].
  - split; [intros _ c []|reflexivity].
  - destruct (id x =? j) eqn:E.
    + apply Z.eqb_eq in E. split; [discriminate|].
      intros Hall. destruct (Hall x (or_introl eq_refl) E).
    + apply Z.eqb_neq in E. rewrite IH. split.
      * intros Hall c [<-|Hc]; [exact E|apply Hall, Hc].
      * intros Hall c Hc. apply Hall. right. exact Hc.
Qed.

Lemma find_course_some courses (j : Z) c :
  find_course courses j = Some c -> In c courses /\ id c = j.
Proof.
  unfold find_course. intros Hf. apply find_some in Hf.
  destruct Hf as [Hin Hid]. apply Z.eqb_eq in Hid. auto.
Qed.

(** [courses.remove(course)] takes out the course that [find_course]
    has found, the first of its id. *)
Lemma remove_found courses (k : Z) c :
  find_course courses k = Some c ->
  exists pre post,
    courses = (pre ++ c :: post)%list
    /\ find_course pre k = None /\ id c = k
    /\ remove c courses = Some (pre ++ post)%list.
Proof.
  unfold find_course. induction courses as [|x courses IH]; [discriminate|].
  cbn [find remove]. destruct (id x =? k) eqn:E.
  - intros Hf. injection Hf as ->. apply Z.eqb_eq in E.
    exists [], courses. rewrite decide_True by reflexivity. auto.
  - intros Hf. destruct (IH Hf) as (pre & post & -> & Hpre & Hid & Hrm).
    exists (x :: pre), post. cbn [find app]. rewrite E, Hrm.
    rewrite decide_False; [auto|].
    intros ->. apply Z.eqb_neq in E. contradiction.
Qed.

Lemma sequential_ids_range courses c :
  sequential_ids courses -> In c courses ->
  1 <= id c <= Z.of_nat (length courses).
Proof.
  unfold sequential_ids. intros Hs Hc.
  apply (in_map id) in Hc. rewrite Hs in Hc. apply in_map_iff in Hc.
  destruct Hc as (n & <- & Hn). apply in_seq in Hn. lia.
Qed.

Lemma sequential_ids_found courses (k : Z) :
  sequential_ids courses -> 1 <= k <= Z.of_nat (length courses) ->
  exists c, find_course courses k = Some c.
Proof.
  unfold sequential_ids. intros Hs Hk.
  destruct (find_course courses k) as [c|] eqn:E; [exists c; reflexivity|].
  exfalso. rewrite find_course_none in E.
  assert (Hin : In k (map id courses)).
  { rewrite Hs. apply in_map_iff. exists (Z.to_nat k).
    split; [lia|apply in_seq; lia]. }
  apply in_map_iff in Hin. destruct Hin as (c & Hid & Hc).
  exact (E c Hc Hid).
Qed.

Lemma sequential_ids_NoDup courses :
  sequential_ids courses -> List.NoDup (map id courses).
Proof.
  unfold sequential_ids. intros ->.
  apply Finite.Injective_map_NoDup; [|apply seq_NoDup].
  intros a b Hab. lia.
Qed.

(** After the removal of the course of id [k], under ids that are all
    different. *)
Lemma find_course_removed pre post c (j : Z) :
  List.NoDup (map id (pre ++ c :: post)) ->
  find_course pre (id c) = None ->
  find_course (pre ++ post) j
  = if j =? id c then None else find_course (pre ++ c :: post) j.
Proof.
  intros Hnd Hpre. rewrite !find_course_app.
  destruct (j =? id c) eqn:E.
  - apply Z.eqb_eq in E. subst j. rewrite Hpre.
    apply find_course_none. intros x Hx Hid.
    rewrite map_app in Hnd. apply NoDup_app_remove_l in Hnd.
    cbn [map] in Hnd. apply NoDup_cons_iff in Hnd. destruct Hnd as [Hni _].
    apply Hni. rewrite <- Hid. apply in_map, Hx.
  - apply Z.eqb_neq in E. destruct (find_course pre j); [reflexivity|].
    unfold find_course. cbn [find].
    destruct (id c =? j) eqn:E'; [|reflexivity].
    apply Z.eqb_eq in E'. congruence.
Qed.

(** X23: a course created in a store whose ids are 1, 2, ..., n gets
    the id n + 1, keeps the ids in sequence, and is the course that
    [get_course] finds under its id. *)
Theorem create_course_then_find (now : string) (result title' : value)
    (data : gmap string value) courses :
  sequential_ids courses ->
  data !! "title" = Some title' ->
  exists new_course,
    fst (create_course str jsonify now (Some result) (Some data) courses)
    = (courses ++ [new_course])%list
    /\ snd (create_course str jsonify now (Some result) (Some data) courses)
       = respond jsonify 201 (Course new_course)
    /\ id new_course = Z.of_nat (length courses) + 1
    /\ title new_course = title'
    /\ ai_enhanced_description new_course = result
    /\ sequential_ids (courses ++ [new_course])
    /\ find_course (courses ++ [new_course]) (id new_course)
       = Some new_course.
Proof.
  intros Hs Ht. unfold create_course. rewrite Ht.
  rewrite bool_decide_false.
  2:{ intros ->. rewrite lookup_empty in Ht. discriminate. }
  rewrite bool_decide_true by (exists title'; reflexivity).
  cbn [orb negb fst snd].
  eexists. split; [reflexivity|]. split; [reflexivity|].
  cbn [id title ai_enhanced_description].
  split; [reflexivity|]. split; [reflexivity|]. split; [reflexivity|]. split.
  - unfold sequential_ids in *. rewrite map_app, length_app, Hs. cbn [map length].
    rewrite Nat.add_1_r, seq_S, map_app. cbn [map id]. f_equal. f_equal. lia.
  - rewrite find_course_app.
    replace (find_course courses (Z.of_nat (length courses) + 1))
      with (@None (@course value)).
    + unfold find_course. cbn [find id]. rewrite Z.eqb_refl. reflexivity.
    + symmetry. apply find_course_none. intros c Hc.
      pose proof (sequential_ids_range courses c Hs Hc). lia.
Qed.

(** X24: [delete_course] on the id of a stored course answers 204 and
    takes out the first course of that id, and no other; it never
    fails on [courses.remove]. *)
Theorem delete_course_removes_first (k : Z) courses c :
  find_course courses k = Some c ->
  exists pre post,
    courses = (pre ++ c :: post)%list
    /\ find_course pre k = None
    /\ delete_course jsonify k courses = ((pre ++ post)%list, Reply 204 None).
Proof.
  intros Hf. destruct (remove_found courses k c Hf)
    as (pre & post & Hc & Hpre & _ & Hrm).
  exists pre, post. unfold delete_course. rewrite Hf, Hrm. auto.
Qed.

(** X25: under ids that are all different, a deleted course is no
    longer found, and every other id finds the course it found
    before. *)
Theorem delete_course_then_find (k : Z) courses c :
  List.NoDup (map id courses) ->
  find_course courses k = Some c ->
  forall j,
    find_course (fst (delete_course jsonify k courses)) j
    = if j =? k then None else find_course courses j.
Proof.
  intros Hnd Hf j.
  destruct (remove_found courses k c Hf)
    as (pre & post & -> & Hpre & <- & Hrm).
  unfold delete_course. rewrite Hf, Hrm. cbn [fst].
  apply find_course_removed; assumption.
Qed.

(** X26: ids are reused. In a store with the ids 1, ..., n, after the
    deletion of a course that is not the last, the next course created
    gets the id n of the last course: [get_course] keeps finding the
    older course under that id, and no id finds the new course. *)
Theorem id_reused_after_delete (now : string) (result title' : value)
    (data : gmap string value) (k : Z) courses :
  sequential_ids courses ->
  1 <= k < Z.of_nat (length courses) ->
  data !! "title" = Some title' ->
  exists courses1 new_course older,
    delete_course jsonify k courses = (courses1, Reply 204 None)
    /\ fst (create_course str jsonify now (Some result) (Some data) courses1)
       = (courses1 ++ [new_course])%list
    /\ id new_course = Z.of_nat (length courses)
    /\ In older courses
    /\ find_course (courses1 ++ [new_course]) (id new_course) = Some older
    /\ forall j c, find_course (courses1 ++ [new_course]) j = Some c ->
                   In c courses.
Proof.
  intros Hs Hk Ht.
  destruct (sequential_ids_found courses k Hs ltac:(lia)) as [c Hf].
  destruct (sequential_ids_found courses (Z.of_nat (length courses)) Hs
              ltac:(lia)) as [older Hold].
  pose proof (sequential_ids_NoDup courses Hs) as Hnd.
  destruct (remove_found courses k c Hf)
    as (pre & post & Hc & Hpre & Hid & Hrm).
  assert (Hlen : length courses = S (length (pre ++ post))).
  { rewrite Hc, !length_app. cbn [length]. lia. }
  assert (Hfind : forall j, find_course (pre ++ post) j
                            = if j =? k then None else find_course courses j).
  { intros j. rewrite Hc, <- Hid. apply find_course_removed.
    - rewrite <- Hc. exact Hnd.
    - rewrite Hid. exact Hpre. }
  set (new_course :=
         {| id := Z.of_nat (length (pre ++ post)) + 1;
            title := title';
            code := default (str "") (data !! "code");
            description := default (str "") (data !! "description");
            professor := default (str "") (data !! "professor");
            created_at := now;
            ai_enhanced_description := result;
            updated_at := None |}).
  exists (pre ++ post)%list, new_course, older.
  assert (Hnew : id new_course = Z.of_nat (length courses)).
  { cbn [id new_course]. lia. }
  split; [unfold delete_course; rewrite Hf, Hrm; reflexivity|].
  split.
  { unfold create_course. rewrite Ht.
    rewrite bool_decide_false.
    2:{ intros ->. rewrite lookup_empty in Ht. discriminate. }
    rewrite bool_decide_true by (exists title'; reflexivity).
    reflexivity. }
  split; [exact Hnew|].
  split; [apply (find_course_some _ _ _ Hold)|].
  split.
  - rewrite find_course_app, Hnew, Hfind.
    replace (Z.of_nat (length courses) =? k) with false
      by (symmetry; apply Z.eqb_neq; lia).
    rewrite Hold. reflexivity.
  - intros j x. rewrite find_course_app, Hfind.
    destruct (j =? k) eqn:Ej.
    + unfold find_course. cbn [find]. rewrite Hnew.
      destruct (Z.of_nat (length courses) =? j) eqn:Ej'; [|discriminate].
      apply Z.eqb_eq in Ej, Ej'. lia.
    + destruct (find_course courses j) as [y|] eqn:Ey.
      * intros Hx. injection Hx as <-. apply (find_course_some _ _ _ Ey).
      * unfold find_course at 1. cbn [find]. rewrite Hnew.
        destruct (Z.of_nat (length courses) =? j) eqn:Ej'; [|discriminate].
        apply Z.eqb_eq in Ej'. subst j. rewrite Hold in Ey. discriminate.
Qed.

Lemma update_first_spec (k : Z) (c' : @course value) courses c (j : Z) :
  find_course courses k = Some c -> id c' = k ->
  map id (update_first k c' courses) = map id courses
  /\ find_course (update_first k c' courses) j
     = if j =? k then Some c' else find_course courses j.
Proof.
  unfold find_course. intros Hf Hid.
  induction courses as [|x courses IH]; [discriminate|].
  cbn [find update_first] in *. destruct (id x =? k) eqn:E.
  - apply Z.eqb_eq in E. cbn [map find]. rewrite Hid, E. split; [reflexivity|].
    rewrite (Z.eqb_sym j k). destruct (k =? j); reflexivity.
  - destruct (IH Hf) as [IH1 IH2]. cbn [map find]. rewrite IH1, IH2.
    split; [reflexivity|].
    destruct (id x =? j) eqn:E'; [|reflexivity].
    apply Z.eqb_eq in E'. apply Z.eqb_neq in E.
    replace (j =? k) with false by (symmetry; apply Z.eqb_neq; lia).
    reflexivity.
Qed.

(** X27: [update_course] on the id of a stored course changes that
    course and no other: the fields of the body replace the old ones,
    the fields left out keep their values, the id, the creation time
    and the enhanced description stay, and the ids of the store are
    the same in the same order. *)
Theorem update_course_changes_one (now : string) (k : Z)
    (data : gmap string value) courses c :
  find_course courses k = Some c ->
  exists c',
    snd (update_course jsonify now k (Some data) courses)
    = respond jsonify 200 (Course c')
    /\ id c' = id c /\ created_at c' = created_at c
    /\ ai_enhanced_description c' = ai_enhanced_description c
    /\ title c' = default (title c) (data !! "title")
    /\ code c' = default (code c) (data !! "code")
    /\ description c' = default (description c) (data !! "description")
    /\ professor c' = default (professor c) (data !! "professor")
    /\ updated_at c' = Some now
    /\ map id (fst (update_course jsonify now k (Some data) courses))
       = map id courses
    /\ forall j,
         find_course (fst (update_course jsonify now k (Some data) courses)) j
         = if j =? k then Some c' else find_course courses j.
Proof.
  intros Hf. pose proof (find_course_some _ _ _ Hf) as [_ Hid].
  unfold update_course. rewrite Hf. cbn [fst snd].
  match goal with
  | |- context [update_first k ?x courses] => set (c' := x)
  end.
  exists c'. split; [reflexivity|].
  do 8 (split; [reflexivity|]).
  split; [|intros j].
  - exact (proj1 (update_first_spec k c' courses c 0 Hf Hid)).
  - exact (proj2 (update_first_spec k c' courses c j Hf Hid)).
Qed.

End CourseStore.

Section CourseStoreExamples.
Import Backend.

Lemma create_course_then_find_witness :
  exists new_course : @course string,
    fst (create_course (fun s => s) (fun _ => Some tt) "2024-01-01T00:00:00"
           (Some "An enhanced description")
           (Some {[ "title" := "Algebra" ]}) [])
    = [new_course]
    /\ id new_course = 1.
Proof.
  destruct (create_course_then_find (fun s : string => s)
              (fun _ => Some tt) "2024-01-01T00:00:00"
              "An enhanced description" "Algebra"
              {[ "title" := "Algebra" ]} [])
    as (c & Hc & _ & Hid & _); [reflexivity|reflexivity|].
  exists c. split; [exact Hc|exact Hid].
Defined.

Lemma delete_course_removes_first_witness :
  let c1 : @course string :=
    {| id := 1; title := "Algebra"; code := ""; description := "";
       professor := ""; created_at := "t1"; ai_enhanced_description := "";
       updated_at := None |} in
  let c2 : @course string :=
    {| id := 2; title := "Logic"; code := ""; description := "";
       professor := ""; created_at := "t2"; ai_enhanced_description := "";
       updated_at := None |} in
  exists pre post,
    [c1; c2] = (pre ++ c2 :: post)%list
    /\ find_course pre 2 = None
    /\ delete_course (fun _ => Some tt) 2 [c1; c2]
       = ((pre ++ post)%list, Reply 204 None).
Proof.
  intros c1 c2.
  exact (delete_course_removes_first (fun _ => Some tt) 2 [c1; c2] c2 eq_refl).
Defined.

Lemma delete_course_then_find_witness :
  let c1 : @course string :=
    {| id := 1; title := "Algebra"; code := ""; description := "";
       professor := ""; created_at := "t1"; ai_enhanced_description := "";
       updated_at := None |} in
  let c2 : @course string :=
    {| id := 2; title := "Logic"; code := ""; description := "";
       professor := ""; created_at := "t2"; ai_enhanced_description := "";
       updated_at := None |} in
  find_course (fst (delete_course (fun _ => Some tt) 1 [c1; c2])) 1 = None
  /\ find_course (fst (delete_course (fun _ => Some tt) 1 [c1; c2])) 2
     = Some c2.
Proof.
  intros c1 c2.
  assert (Hnd : List.NoDup (map id [c1; c2])).
  { repeat constructor; cbn; intuition discriminate. }
  split.
  - exact (delete_course_then_find (fun _ => Some tt) 1 [c1; c2] c1 Hnd
             eq_refl 1).
  - exact (delete_course_then_find (fun _ => Some tt) 1 [c1; c2] c1 Hnd
             eq_refl 2).
Defined.

Lemma id_reused_after_delete_witness :
  let c1 : @course string :=
    {| id := 1; title := "Algebra"; code := ""; description := "";
       professor := ""; created_at := "t1"; ai_enhanced_description := "";
       updated_at := None |} in
  let c2 : @course string :=
    {| id := 2; title := "Logic"; code := ""; description := "";
       professor := ""; created_at := "t2"; ai_enhanced_description := "";
       updated_at := None |} in
  exists courses1 new_course older,
    delete_course (fun _ => Some tt) 1 [c1; c2] = (courses1, Reply 204 None)
    /\ fst (create_course (fun s => s) (fun _ => Some tt) "t3" (Some "")
              (Some {[ "title" := "Topology" ]}) courses1)
       = (courses1 ++ [new_course])%list
    /\ id new_course = 2
    /\ In older [c1; c2]
    /\ find_course (courses1 ++ [new_course]) (id new_course) = Some older
    /\ forall j c, find_course (courses1 ++ [new_course]) j = Some c ->
                   In c [c1; c2].
Proof.
  intros c1 c2.
  apply (id_reused_after_delete (fun s => s) (fun _ => Some tt) "t3" ""
           "Topology" {[ "title" := "Topology" ]} 1 [c1; c2]).
  - reflexivity.
  - cbn [length]. lia.
  - reflexivity.
Defined.

Lemma update_course_changes_one_witness :
  let c1 : @course string :=
    {| id := 1; title := "Algebra"; code := "M1"; description := "";
       professor := ""; created_at := "t1"; ai_enhanced_description := "";
       updated_at := None |} in
  exists c',
    snd (update_course (fun _ => Some tt) "t2" 1
           (Some {[ "title" := "Linear algebra" ]}) [c1])
    = respond (fun _ => Some tt) 200 (Course c')
    /\ id c' = 1 /\ title c' = "Linear algebra" /\ code c' = "M1".
Proof.
  intros c1.
  destruct (update_course_changes_one (fun _ => Some tt) "t2" 1
              {[ "title" := "Linear algebra" ]} [c1] c1 eq_refl)
    as (c' & H1 & H2 & _ & _ & H3 & H4 & _).
  exists c'. repeat split; assumption.
Defined.

End CourseStoreExamples.
